(** * Pre- and post-processing of image tensors (base_app.py)

    A shallow embedding of [preprocess_image] and [postprocess_mask] together
    with the pieces of NumPy and PIL they call:

    - an [ndarray] is a shape and a row-major buffer; the element type plays
      the role of the dtype ([byte] for uint8, [bool], [float] for float64);
    - a PIL [Image] is a mode, a size and a band-interleaved row-major buffer
      of 8-bit samples;
    - Python exceptions are the [Raise] side of [result]; integer indexing
      raises [IndexError] on an empty axis, as NumPy does.

    Floating-point values are Rocq's primitive binary64 floats, so the
    division by [255.0] and the comparison with [0.5] are the IEEE ones.

    [Image.resize] is PIL's; its resampling filter is not fixed by the
    application, so [preprocess_image] takes it as a parameter and the
    theorems assume [resize_contract] only.  [resize_nearest] is one
    resampler that meets the contract; the examples run with it. *)

From Stdlib Require Import Strings.String Strings.Byte DecimalString.
From Stdlib Require DecimalNat DecimalFacts.
From Stdlib Require Import Floats Uint63.
From Stdlib Require Import ZArith NArith Bool Lia Arith PeanoNat List.
Import ListNotations.

Set Implicit Arguments.
Set Warnings "-inexact-float".

(* ------------------------------------------------------------------ *)
(** ** Exceptions *)

Inductive exn : Type :=
| ValueError (msg : string)
| IndexError (index axis size : nat)   (* index out of bounds for axis with size *)
| TypeError (msg : string).

Inductive result (A : Type) : Type :=
| Ok (a : A)
| Raise (e : exn).

Arguments Ok {A} a.
Arguments Raise {A} e.

Definition bind {A B} (r : result A) (k : A -> result B) : result B :=
  match r with
  | Ok a => k a
  | Raise e => Raise e
  end.

Notation "x <- r ;; k" := (bind r (fun x => k))
  (at level 61, r at next level, right associativity).

(* ------------------------------------------------------------------ *)
(** ** NumPy arrays *)

Module Np.

Inductive dtype_tag : Type := bool_ | uint8 | float64.

(** What NumPy needs of an element type here: its tag and its promotion to
    float64, used when an array meets a Python float ([a / 255.0],
    [a > 0.5]). *)
Class DType (A : Type) : Type := {
  tag : dtype_tag;
  to_float64 : A -> float
}.

Definition byte_to_Z (b : byte) : Z := Z.of_N (Byte.to_N b).

#[export] Instance DType_bool : DType bool :=
  {| tag := bool_; to_float64 := fun b : bool => if b then 1%float else 0%float |}.

#[export] Instance DType_uint8 : DType byte :=
  {| tag := uint8;
     to_float64 := fun b : byte => PrimFloat.of_uint63 (Uint63.of_Z (byte_to_Z b)) |}.

#[export] Instance DType_float64 : DType float :=
  {| tag := float64; to_float64 := fun x : float => x |}.

Record ndarray (A : Type) : Type := mk_ndarray {
  shape : list nat;
  data : list A          (* row-major (C order) *)
}.

Arguments mk_ndarray {A} shape data.

Section Arrays.
Context {A : Type}.

Definition ndim (a : ndarray A) : nat := length (shape a).

(** Number of elements a shape describes. *)
Definition size_of (s : list nat) : nat := fold_right Nat.mul 1 s.

Definition well_formed (a : ndarray A) : Prop :=
  length (data a) = size_of (shape a).

Definition dtype `{DType A} (a : ndarray A) : dtype_tag := tag.

(** Row-major offset of a full index, [None] when an index is out of range
    or the index has the wrong length. *)
Fixpoint ravel (s idx : list nat) (acc : nat) : option nat :=
  match s, idx with
  | [], [] => Some acc
  | d :: s', i :: idx' => if i <? d then ravel s' idx' (acc * d + i) else None
  | _, _ => None
  end.

(** [a[i0, i1, ...]] with a full index. *)
Definition item (a : ndarray A) (idx : list nat) : option A :=
  match ravel (shape a) idx 0 with
  | Some o => nth_error (data a) o
  | None => None
  end.

(** [a[k]]: integer index on the first axis. *)
Definition index_first (k : nat) (a : ndarray A) : result (ndarray A) :=
  match shape a with
  | [] => Raise (IndexError k 0 0)
  | n :: rest =>
      if k <? n
      then Ok (mk_ndarray rest
                 (firstn (size_of rest) (skipn (k * size_of rest) (data a))))
      else Raise (IndexError k 0 n)
  end.

(** Every [c]-th element of [l] starting at position [k], [n] of them. *)
Fixpoint strided (c k n : nat) (l : list A) : list A :=
  match n with
  | 0 => []
  | S n' =>
      match skipn k l with
      | x :: _ => x :: strided c k n' (skipn c l)
      | [] => []
      end
  end.

(** [a[..., k]]: integer index on the last axis.  [dropped] counts the
    axes an index before the ellipsis has already consumed, so that the
    error names the axis of the array the user indexed. *)
Definition index_last_from (dropped k : nat) (a : ndarray A) : result (ndarray A) :=
  match rev (shape a) with
  | [] => Raise (IndexError k dropped 0)
  | c :: rinit =>
      if k <? c
      then Ok (mk_ndarray (rev rinit)
                 (strided c k (size_of (rev rinit)) (data a)))
      else Raise (IndexError k (dropped + (ndim a - 1)) c)
  end.

Definition index_last (k : nat) (a : ndarray A) : result (ndarray A) :=
  index_last_from 0 k a.

(** [a[k, ..., j]]: NumPy checks the indices in axis order. *)
Definition index_first_last (k j : nat) (a : ndarray A) : result (ndarray A) :=
  a' <- index_first k a ;; index_last_from 1 j a'.

(** [np.expand_dims(a, axis=0)]. *)
Definition expand_dims0 (a : ndarray A) : ndarray A :=
  mk_ndarray (1 :: shape a) (data a).

(** [np.stack([a] * 3, axis=-1)]. *)
Definition stack3_last (a : ndarray A) : ndarray A :=
  mk_ndarray (shape a ++ [3]) (flat_map (fun x => [x; x; x]) (data a)).

End Arrays.

(** Element-wise operations keep the shape. *)
Definition amap {A B} (f : A -> B) (a : ndarray A) : ndarray B :=
  mk_ndarray (shape a) (map f (data a)).

(** [a / x] for a Python float [x]: true division in float64. *)
Definition true_divide {A} `{DType A} (a : ndarray A) (x : float) : ndarray float :=
  amap (fun v => PrimFloat.div (to_float64 v) x) a.

(** [a > x] for a Python float [x]. *)
Definition greater {A} `{DType A} (a : ndarray A) (x : float) : ndarray bool :=
  amap (fun v => PrimFloat.ltb x (to_float64 v)) a.

(** Reduction of an integer to 8 bits. *)
Definition wrap8 (n : N) : byte :=
  match Byte.of_N (n mod 256) with
  | Some b => b
  | None => x00
  end.

(** [a.astype(np.uint8)] on a boolean array. *)
Definition astype_uint8 (a : ndarray bool) : ndarray byte :=
  amap (fun b : bool => if b then x01 else x00) a.

(** [a * k] on a uint8 array and a Python int that fits uint8: the product
    wraps modulo 256. *)
Definition multiply_uint8 (a : ndarray byte) (k : N) : ndarray byte :=
  amap (fun b => wrap8 (Byte.to_N b * k)) a.

(** [str(a.shape)]: Python's repr of a tuple of ints. *)
Definition repr_nat (n : nat) : string :=
  NilEmpty.string_of_uint (Nat.to_uint n).

Definition repr_shape (s : list nat) : string :=
  match s with
  | [] => "()"
  | [n] => "(" ++ repr_nat n ++ ",)"
  | n :: rest =>
      "(" ++ repr_nat n
        ++ fold_right (fun m acc => ", " ++ repr_nat m ++ acc) ")" rest
  end%string.

End Np.

Import Np.

(* ------------------------------------------------------------------ *)
(** ** PIL images *)

Module PIL.

(** The modes with 8-bit samples.  Images with 1-bit, 16-bit, 32-bit or
    float samples are not covered. *)
Inductive mode_t : Type := L | P | LA | RGB | RGBA | CMYK.

Definition bands (m : mode_t) : nat :=
  match m with
  | L | P => 1
  | LA => 2
  | RGB => 3
  | RGBA | CMYK => 4
  end.

Record Image : Type := mk_Image {
  mode : mode_t;
  width : nat;
  height : nat;
  pixels : list byte      (* row-major, bands interleaved *)
}.

(** [np.array(image)]: (height, width) for a single band, otherwise
    (height, width, bands); dtype uint8. *)
Definition np_array (im : Image) : ndarray byte :=
  mk_ndarray
    (if bands (mode im) =? 1
     then [height im; width im]
     else [height im; width im; bands (mode im)])
    (pixels im).

(** [Image.fromarray(a)] for a uint8 array. *)
Definition fromarray (a : ndarray byte) : result Image :=
  match shape a with
  | [h; w] => Ok (mk_Image L w h (data a))
  | [h; w; 2] => Ok (mk_Image LA w h (data a))
  | [h; w; 3] => Ok (mk_Image RGB w h (data a))
  | [h; w; 4] => Ok (mk_Image RGBA w h (data a))
  | _ => Raise (TypeError "Cannot handle this data type")
  end.

(** What [Image.resize(size)] guarantees, whatever the resampling filter:
    for a positive [size = (width, height)] it returns an image of that size
    in the mode of its input. *)
Definition resize_contract (resize : Image -> nat * nat -> result Image) : Prop :=
  forall im tw th, 0 < tw -> 0 < th ->
    exists im',
      resize im (tw, th) = Ok im'
      /\ mode im' = mode im
      /\ width im' = tw
      /\ height im' = th
      /\ length (pixels im') = th * tw * bands (mode im).

(** Nearest-neighbour resampling, one filter that meets the contract. *)
Definition sample (im : Image) (x y k : nat) : byte :=
  nth ((y * width im + x) * bands (mode im) + k) (pixels im) x00.

Definition resize_nearest (im : Image) (size : nat * nat) : result Image :=
  let '(tw, th) := size in
  if (tw =? 0) || (th =? 0)
  then Raise (ValueError "height and width must be > 0")
  else
    Ok (mk_Image (mode im) tw th
          (flat_map (fun y =>
             flat_map (fun x =>
               map (sample im (x * width im / tw) (y * height im / th))
                   (seq 0 (bands (mode im))))
               (seq 0 tw))
             (seq 0 th))).

End PIL.

Import PIL.

(* ------------------------------------------------------------------ *)
(** ** base_app.py *)

Section App.

(** [Image.resize], with PIL's default resampling filter. *)
Variable resize : Image -> nat * nat -> result Image.

Definition default_target_size : nat * nat := (256, 256).

Definition preprocess_image (image : Image) (target_size : nat * nat)
  : result (ndarray float) :=
  image <- resize image target_size ;;
  let image_array := true_divide (np_array image) 255%float in
  let image_array :=
    if ndim image_array =? 4
    then stack3_last image_array
    else image_array in
  let image_array := expand_dims0 image_array in
  Ok image_array.

End App.

Definition postprocess_mask {A} `{DType A} (mask : ndarray A) : result Image :=
  mask <-
    (if ndim mask =? 4 then index_first_last 0 0 mask
     else if ndim mask =? 3 then index_last 0 mask
     else if ndim mask =? 2 then Ok mask
     else Raise (ValueError ("Unexpected mask shape: " ++ repr_shape (shape mask)))) ;;
  let mask := multiply_uint8 (astype_uint8 (greater mask 0.5%float)) 255 in
  fromarray mask.

(* ------------------------------------------------------------------ *)
(** ** Vocabulary of the statements *)

(** The pixel [(v > 0.5).astype(np.uint8) * 255] of a value [v]. *)
Definition mask_pixel {A} `{DType A} (v : A) : byte :=
  wrap8 (Byte.to_N (if PrimFloat.ltb 0.5%float (to_float64 v) then x01 else x00) * 255).

Definition binary (p : byte) : Prop := p = x00 \/ p = xff.

(** The message of the [ValueError] raised for a shape. *)
Definition unexpected_shape (s : list nat) : exn :=
  ValueError ("Unexpected mask shape: " ++ repr_shape s).

(** The index of channel 0 (and batch 0) at row [i], column [j]. *)
Definition first_channel_index (nd i j : nat) : list nat :=
  match nd with
  | 2 => [i; j]
  | 3 => [i; j; 0]
  | _ => [0; i; j; 0]
  end.

(** Pixel of a single-band image at row [i], column [j]. *)
Definition pixel_at (im : Image) (i j : nat) : option byte :=
  if (i <? height im) && (j <? width im)
  then nth_error (pixels im) (i * width im + j)
  else None.

(** The values the three accepted shapes keep. *)
Definition collapsed {A} (m : ndarray A) : list A :=
  match shape m with
  | [_; _] => data m
  | [h; w; c] => strided c 0 (size_of [h; w]) (data m)
  | [_; h; w; c] =>
      strided c 0 (size_of [h; w]) (firstn (size_of [h; w; c]) (data m))
  | _ => []
  end.

(** [0 <= v <= 1] in binary64. *)
Definition in_unit_interval (v : float) : Prop :=
  PrimFloat.leb 0%float v = true /\ PrimFloat.leb v 1%float = true.

(** The array [np.array(image) / 255.0] of an image. *)
Definition scaled (im : Image) : ndarray float :=
  true_divide (np_array im) 255%float.

(* ------------------------------------------------------------------ *)
(** ** Reading a message *)



(* ------------------------------------------------------------------ *)
(** ** Sample tensors and images *)

(** The tensor of the concrete scenario: shape (1, 4, 4, 1), every row
    [0.1, 0.6, 0.4, 0.9]. *)
Definition scenario_row : list float := [0.1; 0.6; 0.4; 0.9]%float.

Definition scenario_tensor : ndarray float :=
  mk_ndarray [1; 4; 4; 1]
    (scenario_row ++ scenario_row ++ scenario_row ++ scenario_row).

Definition scenario_mask : Image :=
  mk_Image L 4 4
    [x00; xff; x00; xff;  x00; xff; x00; xff;
     x00; xff; x00; xff;  x00; xff; x00; xff].

Definition two_axis_tensor : ndarray float :=
  mk_ndarray [2; 3] [0.5; 0.75; 0.25; 1; 0; 0.5000001]%float.

(** Two (1, 1, 2, 2) tensors and two (1, 2, 2) tensors that differ in
    channel 1 only. *)
Definition channels_a : ndarray float :=
  mk_ndarray [1; 1; 2; 2] [0.1; 0.9; 0.6; 0.2]%float.
Definition channels_b : ndarray float :=
  mk_ndarray [1; 1; 2; 2] [0.1; 0.3; 0.6; 0.8]%float.

(** Sample inputs: a 2 by 2 grayscale image, a 1 by 1 RGBA image and a
    2 by 1 RGB image. *)
Definition gray_image : Image := mk_Image L 2 2 [x00; xff; x80; x01].
Definition rgba_image : Image := mk_Image RGBA 1 1 [x00; xff; x80; x01].
Definition rgb_image : Image := mk_Image RGB 2 1 [x00; xff; x80; x01; x02; xfe].

Definition three_axis_tensor : ndarray float :=
  mk_ndarray [1; 2; 2] [0.7; 0.1; 0.2; 0.9]%float.

(* ------------------------------------------------------------------ *)
(** ** The rest of the numeric code *)

(** Lines 68 to 70 of [preprocess_image], as a function of the scaled
    array: the channel replication guarded by the test for 4 axes, then the
    batch axis. *)
Definition replicate_and_batch (image_array : ndarray float) : ndarray float :=
  let image_array :=
    if ndim image_array =? 4
    then stack3_last image_array
    else image_array in
  expand_dims0 image_array.

(** The "Run Model" button prepares the model input inline:
    [np.array(selected_image.resize((256, 256))) / 255.0], then
    [np.expand_dims(img_array, axis=0)]. *)
Definition run_model_input (resize : Image -> nat * nat -> result Image)
    (selected_image : Image) : result (ndarray float) :=
  resized <- resize selected_image (256, 256) ;;
  let img_array := true_divide (np_array resized) 255%float in
  let img_array := expand_dims0 img_array in
  Ok img_array.

(** The float64 value [b / 255.0] of a sample. *)
Definition scale_sample (b : byte) : float :=
  PrimFloat.div (to_float64 b) 255%float.

(** The 256 sample values, in order. *)
Definition all_bytes : list byte :=
  flat_map (fun n => match Byte.of_N (N.of_nat n) with
                     | Some b => [b]
                     | None => []
                     end) (seq 0 256).

(* ------------------------------------------------------------------ *)
(** ** Streamlit as the script uses it

    A run of the script works on the session state, which outlives the run,
    and issues calls to the presentation layer; the calls are logged with
    the container they are made in.  [Col i] is column [i] of the
    [st.columns] call of the code fragment at hand.  An exception ends the
    fragment and leaves the state as it was at that point. *)

Module St.

Inductive py_exn : Type :=
| Core (e : exn)            (* raised by NumPy, PIL or the model *)
| KeyError (key : string)
| ListIndexError.           (* list index out of range *)

Inductive outcome (A : Type) : Type :=
| Return (a : A)
| Throw (e : py_exn).

Arguments Return {A} a.
Arguments Throw {A} e.

(** Python dicts with string keys, in insertion order. *)
Definition dict (V : Type) : Type := list (string * V).

Fixpoint dict_find {V} (k : string) (d : dict V) : option V :=
  match d with
  | [] => None
  | (k', v) :: rest => if String.eqb k k' then Some v else dict_find k rest
  end.

(** [k in d]. *)
Definition dict_contains {V} (k : string) (d : dict V) : bool :=
  match dict_find k d with
  | Some _ => true
  | None => false
  end.

(** [d[k]]. *)
Definition dict_getitem {V} (k : string) (d : dict V) : outcome V :=
  match dict_find k d with
  | Some v => Return v
  | None => Throw (KeyError k)
  end.

(** [d[k] = v]. *)
Fixpoint dict_setitem {V} (k : string) (v : V) (d : dict V) : dict V :=
  match d with
  | [] => [(k, v)]
  | (k', v') :: rest =>
      if String.eqb k k' then (k, v) :: rest else (k', v') :: dict_setitem k v rest
  end.


Inductive container : Type := Page | Col (i : nat).

Inductive call : Type :=
| st_markdown (text : string)
| st_subheader (text : string)
| st_write (text : string)
| st_button (label : string)
| st_file_uploader (label : string)
| st_image_file (path : string) (width : nat)
| st_image (image : Image) (caption : option string) (width : option nat)
    (use_column_width : option bool)
| st_image_array (a : ndarray float) (caption : string) (use_column_width : bool).

Record page_state : Type := mk_page_state {
  session : dict (option Image);      (* st.session_state *)
  calls : list (container * call)     (* oldest first *)
}.

Definition App (A : Type) : Type := page_state -> page_state * outcome A.

Definition ret {A} (a : A) : App A := fun s => (s, Return a).

Definition throw {A} (e : py_exn) : App A := fun s => (s, Throw e).

Definition and_then {A B} (m : App A) (k : A -> App B) : App B :=
  fun s =>
    match m s with
    | (s', Return a) => k a s'
    | (s', Throw e) => (s', Throw e)
    end.

(** A call into NumPy, PIL or the model. *)
Definition lift {A} (r : result A) : App A :=
  match r with
  | Ok a => ret a
  | Raise e => throw (Core e)
  end.

Definition of_outcome {A} (o : outcome A) : App A := fun s => (s, o).

Definition emit (c : container) (w : call) : App unit :=
  fun s => (mk_page_state (session s) (calls s ++ [(c, w)]), Return tt).

Definition session_contains (k : string) : App bool :=
  fun s => (s, Return (dict_contains k (session s))).

Definition session_getitem (k : string) : App (option Image) :=
  fun s => (s, dict_getitem k (session s)).

Definition session_setitem (k : string) (v : option Image) : App unit :=
  fun s => (mk_page_state (dict_setitem k v (session s)) (calls s), Return tt).

(** [cols[idx]] for the list returned by [st.columns(n)]. *)
Definition column (n idx : nat) : App container :=
  if idx <? n then ret (Col idx) else throw ListIndexError.

End St.

Import St.

Notation "x <~ m ;; k" := (and_then m (fun x => k))
  (at level 61, m at next level, right associativity).
Notation "m ;;; k" := (and_then m (fun _ => k))
  (at level 61, right associativity).

(* ------------------------------------------------------------------ *)
(** ** The script outside the two functions *)

(** Lines 61 and 62. *)
Definition init_session_state : App unit :=
  present <~ session_contains "generated_mask" ;;
  if negb present then session_setitem "generated_mask" None else ret tt.

Section Script.

Variable resize : Image -> nat * nat -> result Image.

(** [Image.open] on a path. *)
Variable image_open : string -> result Image.

(** A file handed over by [st.file_uploader], and [Image.open] on it. *)
Variable uploaded_file_t : Type.
Variable image_open_upload : uploaded_file_t -> result Image.

(** [tf.keras.models.load_model] and [model.predict]. *)
Variable model_t : Type.
Variable load_model : string -> result model_t.
Variable predict : model_t -> ndarray float -> result (ndarray float).

Definition load_height_model : result model_t := load_model "model.h5".

Definition load_segmentation_model : result model_t := load_model "model.h5".

(** Lines 126 to 148: the sample images and their buttons in the columns of
    [st.columns(n_cols)], then the upload.  [clicked label] is what
    [st.button(label)] returns in this run. *)
Fixpoint show_samples (n_cols idx : nat) (items : dict string) : App unit :=
  match items with
  | [] => ret tt
  | (label, image_path) :: rest =>
      img <~ lift (image_open image_path) ;;
      c <~ column n_cols idx ;;
      emit c (st_image img None (Some 250) (Some false)) ;;;
      show_samples n_cols (S idx) rest
  end.

Fixpoint sample_buttons (n_cols idx : nat) (clicked : string -> bool)
    (items : dict string) (selected_image : option Image) : App (option Image) :=
  match items with
  | [] => ret selected_image
  | (label, image_path) :: rest =>
      img <~ lift (image_open image_path) ;;
      c <~ column n_cols idx ;;
      emit c (st_button label) ;;;
      selected_image <~
        (if clicked label
         then im <~ lift (image_open image_path) ;; ret (Some im)
         else ret selected_image) ;;
      sample_buttons n_cols (S idx) clicked rest selected_image
  end.

Definition select_image (n_cols : nat) (sample_images : dict string)
    (clicked : string -> bool) (uploaded_file : option uploaded_file_t)
  : App (option Image) :=
  let selected_image := None in
  show_samples n_cols 0 sample_images ;;;
  selected_image <~ sample_buttons n_cols 0 clicked sample_images selected_image ;;
  emit Page (st_file_uploader "Or upload Your Satellite Image") ;;;
  match uploaded_file with
  | Some f => im <~ lift (image_open_upload f) ;; ret (Some im)
  | None => ret selected_image
  end.

Definition sample_images : dict string :=
  [("Sample Image 1", "test_image1.jpg");
   ("Sample Image 2", "test_image2.jpg");
   ("Sample Image 3", "test_image3.jpg")]%string.

(** Lines 149 to 165: the "Generate Mask" button and the persistent mask. *)
Definition mask_block (segmentation_model : model_t)
    (selected_image : option Image) (generate_clicked : bool) : App unit :=
  match selected_image with
  | None => ret tt
  | Some selected_image =>
      emit (Col 0) (st_image selected_image (Some "Original Image"%string) None (Some true)) ;;;
      emit Page (st_button "Generate Mask") ;;;
      (if generate_clicked
       then
         preprocessed_image <~
           lift (preprocess_image resize selected_image default_target_size) ;;
         mask <~ lift (predict segmentation_model preprocessed_image) ;;
         mask_image <~ lift (postprocess_mask mask) ;;
         session_setitem "generated_mask" (Some mask_image)
       else ret tt) ;;;
      generated_mask <~ session_getitem "generated_mask" ;;
      match generated_mask with
      | Some m => emit (Col 1) (st_image m (Some "Generated Mask"%string) None (Some true))
      | None => ret tt
      end
  end.

(** Lines 167 to 185: the "Run Model" button. *)
Definition run_model_block (height_model segmentation_model : model_t)
    (model_type : string) (selected_image : option Image) (run_clicked : bool)
  : App unit :=
  match selected_image with
  | None => ret tt
  | Some selected_image =>
      emit Page (st_button "Run Model") ;;;
      if run_clicked
      then
        img_array <~ lift (run_model_input resize selected_image) ;;
        if String.eqb model_type "Height Model"
        then
          height_prediction <~ lift (predict height_model img_array) ;;
          emit Page (st_subheader "Height Model Prediction") ;;;
          first <~ lift (index_first 0 height_prediction) ;;
          emit Page (st_image_array first "Height Output" true) ;;;
          emit Page (st_write "Performance metrics: []")
        else if String.eqb model_type "Segmentation Model"
        then
          segmentation_prediction <~ lift (predict segmentation_model img_array) ;;
          emit Page (st_subheader "Segmentation Model Prediction") ;;;
          first <~ lift (index_first 0 segmentation_prediction) ;;
          emit Page (st_image_array first "Segmentation Output" true) ;;;
          emit Page (st_write "Test Mean IoU: 0.74")
        else ret tt
      else ret tt
  end.

Definition image_mask_pairs : dict (string * string) :=
  [("austin17-1", ("austin17-8.jpg", "austin17-8-mask.png"));
   ("austin17-2", ("austin17-9.jpg", "austin17-9-mask.png"));
   ("austin17-3", ("austin17-10.jpg", "austin17-10-mask.png"));
   ("austin17-4", ("austin17-11.jpg", "austin17-11-mask.png"))]%string.

(** Lines 220 to 231: the "Images and Masks" page below its selectbox.
    [selected_pair] is what [st.selectbox] returns. *)
Definition show_pair (image_mask_pairs : dict (string * string))
    (selected_pair : option string) : App unit :=
  match selected_pair with
  | None => ret tt
  | Some ""%string => ret tt
  | Some selected_pair =>
      paths <~ of_outcome (dict_getitem selected_pair image_mask_pairs) ;;
      let '(image_path, mask_path) := paths in
      image <~ lift (image_open image_path) ;;
      mask <~ lift (image_open mask_path) ;;
      emit (Col 0)
        (st_image image (Some (selected_pair ++ " - Original Image")%string) None None) ;;;
      emit (Col 1) (st_image mask (Some (selected_pair ++ " - Mask")%string) None None)
  end.

End Script.

Definition team_members : list (dict string) :=
  [ [("name", "EMMANUEL NKHUBALALE - Data Science Intern | Team Lead");
     ("photo", "Nkadimeng.jpg");
     ("email", "physimanuel@gmail.com");
     ("linkedin", "https://linkedin.com/in/emmanuel")];
    [("name", "NOLWAZI MNDEBELE - Data Science Intern | Project Manager");
     ("photo", "Nolwazi.jpg");
     ("email", "mndebelenf@gmail.com");
     ("linkedin", "https://linkedin.com/in/nolwazi")];
    [("name", "CARROLL TSHABANE - Data Science Intern");
     ("photo", "Carroll.jpg");
     ("email", "ctshabane@gmail.com");
     ("linkedin", "https://linkedin.com/in/carroll")];
    [("name", "JAN MOTENE - Data Science Intern");
     ("photo", "Jan.jpg");
     ("email", "motenejo@gmail.com");
     ("linkedin", "https://linkedin.com/in/jan")];
    [("name", "ZAMANCWABE MAKHATHINI - Data Science Intern/ Engineer");
     ("photo", "Zama.jpg");
     ("email", "zamancwabemakhathini@gmail.com");
     ("linkedin", "https://linkedin.com/in/zamancwabe")];
    [("name", "MUWANWA TSHIKOVHI - Data Science Intern");
     ("photo", "test_image1.jpg");
     ("email", "tshikovhimuwanwa@gmail.com");
     ("linkedin", "https://linkedin.com/in/muwanwa")];
    [("name", "SIBUKISO NHLENGETHWA - Data Science Intern");
     ("photo", "Sibukiso.jpg");
     ("email", "sibukisot@gmail.com");
     ("linkedin", "https://linkedin.com/in/sibukiso")] ]%string.

(** Lines 284 to 290: the team members, alternating between two columns.
    [load_file path] is Streamlit opening the file that [st.image(path)]
    is to show: the call raises when the file cannot be opened, and
    nothing is shown then. *)
Definition render_member (load_file : string -> result unit)
    (c : container) (member : dict string) : App unit :=
  photo <~ of_outcome (dict_getitem "photo" member) ;;
  lift (load_file photo) ;;;
  emit c (st_image_file photo 120) ;;;
  name <~ of_outcome (dict_getitem "name" member) ;;
  emit c (st_markdown ("**Name**: " ++ name)) ;;;
  email <~ of_outcome (dict_getitem "email" member) ;;
  emit c (st_markdown ("**📧 Email**: " ++ email)) ;;;
  linkedin <~ of_outcome (dict_getitem "linkedin" member) ;;
  emit c (st_markdown ("**🟦LinkedIn**: " ++ linkedin)).

Fixpoint render_team_from (load_file : string -> result unit) (idx : nat)
    (team_members : list (dict string)) : App unit :=
  match team_members with
  | [] => ret tt
  | member :: rest =>
      render_member load_file (if idx mod 2 =? 0 then Col 0 else Col 1) member ;;;
      render_team_from load_file (S idx) rest
  end.

Definition render_team (load_file : string -> result unit)
    (team_members : list (dict string)) : App unit :=
  render_team_from load_file 0 team_members.

(* ------------------------------------------------------------------ *)
(** ** Vocabulary for the script *)

Definition container_eqb (c1 c2 : container) : bool :=
  match c1, c2 with
  | Page, Page => true
  | Col i, Col j => i =? j
  | _, _ => false
  end.

(** The calls of a log made in one container, in order. *)
Definition calls_in (c : container) (log : list (container * call)) : list call :=
  map snd (filter (fun e => container_eqb (fst e) c) log).

(** The arrays a log hands to [st.image]. *)
Definition shown_arrays (log : list (container * call)) : list (ndarray float) :=
  flat_map (fun e => match snd e with
                     | st_image_array a _ _ => [a]
                     | _ => []
                     end) log.

(** What [st.session_state] holds under "generated_mask", if anything. *)
Definition mask_slot (s : page_state) : option (option Image) :=
  dict_find "generated_mask" (session s).

(** A single-band image with pixels 0 or 255 only. *)
Definition is_mask (img : Image) : Prop :=
  mode img = L /\ Forall binary (pixels img).

Definition slot_ok (s : page_state) : Prop :=
  match mask_slot s with
  | Some (Some img) => is_mask img
  | _ => True
  end.

(** A fragment that leaves the session state alone. *)
Definition preserves_session {A} (m : App A) : Prop :=
  forall s, session (fst (m s)) = session s.

(** The state after the fragments of some runs, one after the other; an
    exception ends its fragment only. *)
Fixpoint run_all (fragments : list (App unit)) (s : page_state) : page_state :=
  match fragments with
  | [] => s
  | m :: rest => run_all rest (fst (m s))
  end.

(** The four keys [render_member] reads. *)
Definition member_keys : list string := ["photo"; "name"; "email"; "linkedin"]%string.

Definition has_member_keys (member : dict string) : Prop :=
  forall k, In k member_keys -> dict_find k member <> None.

(** The photo of a member can be opened. *)
Definition photo_loads (load_file : string -> result unit) (member : dict string) : Prop :=
  forall photo, dict_find "photo" member = Some photo -> load_file photo = Ok tt.

(** A member that can be shown: all keys, and a photo that opens. *)
Definition member_shows (load_file : string -> result unit) (member : dict string) : Prop :=
  has_member_keys member /\ photo_loads load_file member.

(** Files that all open. *)
Definition load_any (path : string) : result unit := Ok tt.

(** The four calls that show a member with all keys. *)
Definition member_card (member : dict string) : list call :=
  match dict_find "photo" member, dict_find "name" member,
        dict_find "email" member, dict_find "linkedin" member with
  | Some photo, Some name, Some email, Some linkedin =>
      [st_image_file photo 120;
       st_markdown ("**Name**: " ++ name);
       st_markdown ("**📧 Email**: " ++ email);
       st_markdown ("**🟦LinkedIn**: " ++ linkedin)]
  | _, _, _, _ => []
  end.

(** The entries of a list at positions 0, 2, 4, ... and at 1, 3, 5, ... *)
Fixpoint even_positions {A} (l : list A) : list A :=
  match l with
  | [] => []
  | x :: rest =>
      x :: match rest with
           | [] => []
           | _ :: rest' => even_positions rest'
           end
  end.

Definition odd_positions {A} (l : list A) : list A := even_positions (tl l).

(** The three steps behind the "Generate Mask" button. *)
Definition generate (resize : Image -> nat * nat -> result Image) {model_t : Type}
    (predict : model_t -> ndarray float -> result (ndarray float))
    (segmentation_model : model_t) (selected_image : Image) : result Image :=
  preprocessed_image <- preprocess_image resize selected_image default_target_size ;;
  mask <- predict segmentation_model preprocessed_image ;;
  postprocess_mask mask.

(** The samples of a resized image, none if resizing failed. *)
Definition pixels_of (r : result Image) : list byte :=
  match r with
  | Ok im => pixels im
  | Raise _ => []
  end.

(** The fragments of the script that are modelled here, with any inputs. *)
Inductive script_fragment : App unit -> Prop :=
| fragment_init : script_fragment init_session_state
| fragment_select image_open (uploaded_file_t : Type)
    (image_open_upload : uploaded_file_t -> result Image)
    n_cols items clicked uploaded_file :
    script_fragment
      (select_image image_open image_open_upload n_cols items clicked uploaded_file
       ;;; ret tt)
| fragment_mask resize (model_t : Type)
    (predict : model_t -> ndarray float -> result (ndarray float))
    segmentation_model selected_image generate_clicked :
    script_fragment
      (mask_block resize predict segmentation_model selected_image generate_clicked)
| fragment_run resize (model_t : Type)
    (predict : model_t -> ndarray float -> result (ndarray float))
    height_model segmentation_model model_type selected_image run_clicked :
    script_fragment
      (run_model_block resize predict height_model segmentation_model
         model_type selected_image run_clicked)
| fragment_pair image_open pairs selected_pair :
    script_fragment (show_pair image_open pairs selected_pair)
| fragment_team load_file members : script_fragment (render_team load_file members).

(** The calls [render_team_from idx] makes for members that can be shown. *)
Fixpoint team_log (idx : nat) (members : list (dict string)) : list (container * call) :=
  match members with
  | [] => []
  | member :: rest =>
      map (pair (if idx mod 2 =? 0 then Col 0 else Col 1)) (member_card member)
      ++ team_log (S idx) rest
  end.

(** An [Image.open] that decodes every file to one image. *)
Definition open_any (im : Image) (path : string) : result Image := Ok im.

(** A model that answers every input with one tensor, and the state of a
    new session. *)
Definition constant_predict (answer : ndarray float)
    (model : unit) (x : ndarray float) : result (ndarray float) := Ok answer.

Definition new_session : page_state := mk_page_state [] [].

(* ------------------------------------------------------------------ *)
(** ** Facts about the list operations behind indexing *)

Section ListFacts.
Context {A : Type}.

Lemma strided_length (c k n : nat) (l : list A) :
  k < c -> n * c <= length l -> length (strided c k n l) = n.
Proof.
  intros Hk. revert l.
  induction n as [|n IH]; intros l Hl; simpl; [reflexivity|].
  destruct (skipn k l) as [|x t] eqn:E.
  - apply (f_equal (@length A)) in E. rewrite length_skipn in E.
    simpl in *. lia.
  - simpl. f_equal. apply IH. rewrite length_skipn. simpl in Hl. lia.
Qed.

Lemma strided_nth_error (c k n : nat) (l : list A) (g : nat) :
  k < c -> n * c <= length l -> g < n ->
  nth_error (strided c k n l) g = nth_error l (g * c + k).
Proof.
  intros Hk. revert l g.
  induction n as [|n IH]; intros l g Hl Hg; [lia|].
  simpl strided.
  destruct (skipn k l) as [|x t] eqn:E.
  - apply (f_equal (@length A)) in E. rewrite length_skipn in E.
    simpl in *. lia.
  - destruct g as [|g]; simpl.
    + rewrite <- (firstn_skipn k l) at 1. rewrite E.
      rewrite nth_error_app2; rewrite length_firstn.
      * replace (k - Nat.min k (length l)) with 0 by (simpl in Hl; lia).
        reflexivity.
      * lia.
    + rewrite IH.
      * rewrite nth_error_skipn. f_equal. lia.
      * rewrite length_skipn. simpl in Hl. lia.
      * lia.
Qed.

(** Two lists of one length with the same entries are equal. *)
Lemma nth_error_ext_len (l1 l2 : list A) (n : nat) :
  length l1 = n -> length l2 = n ->
  (forall g, g < n -> nth_error l1 g = nth_error l2 g) ->
  l1 = l2.
Proof.
  intros H1 H2 H. apply nth_error_ext. intros g.
  destruct (Nat.lt_ge_cases g n) as [Hg|Hg]; [now apply H|].
  rewrite (proj2 (nth_error_None l1 g)) by lia.
  rewrite (proj2 (nth_error_None l2 g)) by lia.
  reflexivity.
Qed.

End ListFacts.

(** Row-major offsets stay inside the grid. *)
Lemma grid_offset_lt (i j h w : nat) : i < h -> j < w -> i * w + j < h * w.
Proof.
  intros Hi Hj. apply Nat.lt_le_trans with (S i * w).
  - simpl. lia.
  - apply Nat.mul_le_mono_r. lia.
Qed.

(** Position [g] of an [h] by [w] grid, as row and column. *)
Lemma grid_position (g h w : nat) :
  g < h * w -> g / w < h /\ g mod w < w /\ g = g / w * w + g mod w.
Proof.
  intros Hg. assert (Hw : w <> 0) by (intros ->; lia).
  repeat split.
  - apply Nat.Div0.div_lt_upper_bound. lia.
  - apply Nat.mod_upper_bound. exact Hw.
  - rewrite (Nat.div_mod_eq g w) at 1. lia.
Qed.

Lemma mul_ge_of_pos (a x : nat) : 0 < a -> x <= a * x.
Proof.
  intros Ha. destruct a as [|a]; [lia|]. simpl. lia.
Qed.

(* ------------------------------------------------------------------ *)
(** ** The order of binary64 floats *)

Section FloatOrder.

Lemma SFcompare_antisym (x y : spec_float) :
  SFcompare y x = option_map CompOpp (SFcompare x y).
Proof.
  destruct x as [sx|sx| |sx mx ex], y as [sy|sy| |sy my ey]; simpl;
    try reflexivity;
    try (destruct sx; reflexivity);
    try (destruct sy; reflexivity);
    try (destruct sx, sy; reflexivity).
  destruct sx, sy; simpl; try reflexivity;
    rewrite (Z.compare_antisym ey ex);
    destruct (ey ?= ex)%Z; simpl; try reflexivity.
  - rewrite CompOpp_involutive. f_equal.
    exact (eq_sym (Pos.compare_antisym my mx)).
  - f_equal. exact (Pos.compare_antisym mx my).
Qed.

Lemma leb_not_ltb (x y : float) :
  PrimFloat.leb x y = true -> PrimFloat.ltb y x = false.
Proof.
  rewrite FloatAxioms.leb_spec, FloatAxioms.ltb_spec. unfold SFleb, SFltb.
  rewrite (SFcompare_antisym (Prim2SF x) (Prim2SF y)).
  destruct (SFcompare (Prim2SF x) (Prim2SF y)) as [[ | | ]|]; simpl;
    congruence.
Qed.

Lemma ltb_not_leb (x y : float) :
  PrimFloat.ltb y x = true -> PrimFloat.leb x y = false.
Proof.
  intros H. destruct (PrimFloat.leb x y) eqn:E; [|reflexivity].
  apply leb_not_ltb in E. congruence.
Qed.

End FloatOrder.

(* ------------------------------------------------------------------ *)
(** ** Thresholding *)

Section Threshold.
Context {A : Type} `{DType A}.

Lemma mask_pixel_eq (v : A) :
  mask_pixel v = if PrimFloat.ltb 0.5%float (to_float64 v) then xff else x00.
Proof.
  unfold mask_pixel. destruct (PrimFloat.ltb _ _); reflexivity.
Qed.

Lemma mask_pixel_binary (v : A) : binary (mask_pixel v).
Proof.
  rewrite mask_pixel_eq. destruct (PrimFloat.ltb _ _); [right|left]; reflexivity.
Qed.

Lemma threshold_eq (m : ndarray A) :
  multiply_uint8 (astype_uint8 (greater m 0.5%float)) 255
  = mk_ndarray (shape m) (map mask_pixel (data m)).
Proof.
  unfold multiply_uint8, astype_uint8, greater, amap. simpl.
  rewrite !map_map. reflexivity.
Qed.

Lemma Forall_binary_map (l : list A) : Forall binary (map mask_pixel l).
Proof.
  apply Forall_forall. intros p Hp. apply in_map_iff in Hp.
  destruct Hp as [v [<- _]]. apply mask_pixel_binary.
Qed.

End Threshold.

(** On its own outputs the threshold changes nothing. *)
Lemma mask_pixel_stable (p : byte) : binary p -> mask_pixel p = p.
Proof.
  intros [-> | ->]; vm_compute; reflexivity.
Qed.

(* ------------------------------------------------------------------ *)
(** ** What [postprocess_mask] computes, by axis count *)

Section Postprocess.
Context {A : Type} `{DType A}.

Lemma postprocess_mask_cases (m : ndarray A) :
  postprocess_mask m =
  match shape m with
  | [h; w] => Ok (mk_Image L w h (map mask_pixel (collapsed m)))
  | [h; w; c] =>
      if 0 <? c
      then Ok (mk_Image L w h (map mask_pixel (collapsed m)))
      else Raise (IndexError 0 2 0)
  | [b; h; w; c] =>
      if 0 <? b
      then if 0 <? c
           then Ok (mk_Image L w h (map mask_pixel (collapsed m)))
           else Raise (IndexError 0 3 0)
      else Raise (IndexError 0 0 b)
  | s => Raise (unexpected_shape s)
  end.
Proof.
  unfold postprocess_mask, collapsed, ndim.
  destruct m as [s d]; simpl shape; simpl data.
  destruct s as [|a [|b [|c [|e [|f r]]]]]; try reflexivity.
  - (* two axes *)
    cbn [length Nat.eqb bind]. rewrite threshold_eq. reflexivity.
  - (* three axes *)
    cbn [length Nat.eqb]. unfold index_last, index_last_from.
    cbn [shape data rev app ndim length].
    destruct c as [|c]; [reflexivity|].
    cbn [Nat.ltb Nat.leb bind]. rewrite threshold_eq. reflexivity.
  - (* four axes *)
    cbn [length Nat.eqb]. unfold index_first_last, index_first.
    cbn [shape data].
    destruct a as [|a]; [reflexivity|].
    cbn [Nat.ltb Nat.leb bind]. unfold index_last_from.
    cbn [shape data rev app ndim length].
    destruct e as [|e]; [reflexivity|].
    cbn [Nat.ltb Nat.leb bind Nat.mul skipn]. rewrite threshold_eq.
    reflexivity.
Qed.

(** Length of the kept values of a well-formed tensor. *)
Lemma collapsed_length (m : ndarray A) :
  well_formed m ->
  match shape m with
  | [h; w] => length (collapsed m) = h * w
  | [h; w; c] => 0 < c -> length (collapsed m) = h * w
  | [b; h; w; c] => 0 < b -> 0 < c -> length (collapsed m) = h * w
  | _ => True
  end.
Proof.
  unfold well_formed, collapsed. destruct m as [s d]; simpl shape; simpl data.
  destruct s as [|a [|b [|c [|e [|f r]]]]]; try exact (fun _ => I);
    unfold size_of; cbn [fold_right]; rewrite ?Nat.mul_1_r; intros Hwf.
  - exact Hwf.
  - intros Hc. rewrite strided_length; [reflexivity|lia|lia].
  - intros Ha He. pose proof (mul_ge_of_pos (b * (c * e)) Ha) as Hle.
    rewrite strided_length; [reflexivity|lia|].
    rewrite length_firstn. lia.
Qed.

(** Entry [i * w + j] of the kept values is the element of the tensor at
    channel 0 (and batch 0), row [i], column [j]. *)
Lemma collapsed_nth_error (m : ndarray A) (i j : nat) :
  well_formed m ->
  match shape m with
  | [h; w] =>
      i < h -> j < w ->
      nth_error (collapsed m) (i * w + j) = item m [i; j]
  | [h; w; c] =>
      0 < c -> i < h -> j < w ->
      nth_error (collapsed m) (i * w + j) = item m [i; j; 0]
  | [b; h; w; c] =>
      0 < b -> 0 < c -> i < h -> j < w ->
      nth_error (collapsed m) (i * w + j) = item m [0; i; j; 0]
  | _ => True
  end.
Proof.
  unfold well_formed, collapsed, item.
  destruct m as [s d]; simpl shape; simpl data.
  destruct s as [|a [|b [|c [|e [|f r]]]]]; try exact (fun _ => I);
    unfold size_of; cbn [fold_right ravel]; rewrite ?Nat.mul_1_r; intros Hwf.
  - intros Hi Hj.
    rewrite (proj2 (Nat.ltb_lt i a) Hi), (proj2 (Nat.ltb_lt j b) Hj).
    reflexivity.
  - intros Hc Hi Hj.
    rewrite (proj2 (Nat.ltb_lt i a) Hi), (proj2 (Nat.ltb_lt j b) Hj),
            (proj2 (Nat.ltb_lt 0 c) Hc).
    pose proof (grid_offset_lt Hi Hj) as Hg.
    rewrite strided_nth_error; [|lia|lia|lia].
    f_equal; lia.
  - intros Ha He Hi Hj.
    pose proof (grid_offset_lt Hi Hj) as Hg.
    pose proof (mul_ge_of_pos (b * (c * e)) Ha) as Hle.
    rewrite (proj2 (Nat.ltb_lt 0 a) Ha), (proj2 (Nat.ltb_lt i b) Hi),
            (proj2 (Nat.ltb_lt j c) Hj), (proj2 (Nat.ltb_lt 0 e) He).
    rewrite strided_nth_error; [|lia| rewrite length_firstn; lia | lia].
    rewrite nth_error_firstn.
    assert (Hlt : (i * c + j) * e + 0 < b * (c * e)).
    { rewrite Nat.mul_assoc. apply grid_offset_lt; assumption. }
    apply Nat.ltb_lt in Hlt. rewrite Hlt.
    f_equal; lia.
Qed.

End Postprocess.

(* ------------------------------------------------------------------ *)
(** ** The Postprocessor *)

Example postprocess_scenario : postprocess_mask scenario_tensor = Ok scenario_mask.
Proof. vm_compute. reflexivity. Qed.

Example postprocess_one_axis :
  postprocess_mask (mk_ndarray [5] [0.1; 0.6; 0.4; 0.9; 0.7]%float)
  = Raise (ValueError "Unexpected mask shape: (5,)").
Proof. vm_compute. reflexivity. Qed.

Example postprocess_five_axes :
  postprocess_mask (mk_ndarray [1; 1; 2; 1; 1] [0.1; 0.6]%float)
  = Raise (ValueError "Unexpected mask shape: (1, 1, 2, 1, 1)").
Proof. vm_compute. reflexivity. Qed.

Section ReadingShapes.









End ReadingShapes.



Section PostprocessPixels.
Context {A : Type} `{DType A}.

(** A converted tensor gives a single-band image whose pixels are the
    thresholded kept values. *)
Lemma postprocess_mask_ok_inv (m : ndarray A) (img : Image) :
  postprocess_mask m = Ok img ->
  exists h w,
    img = mk_Image L w h (map mask_pixel (collapsed m))
    /\ (shape m = [h; w]
        \/ (exists c, shape m = [h; w; c] /\ 0 < c)
        \/ (exists b c, shape m = [b; h; w; c] /\ 0 < b /\ 0 < c)).
Proof.
  rewrite (postprocess_mask_cases m).
  destruct (shape m) as [|a [|b [|c [|e [|f r]]]]] eqn:E; try discriminate.
  - intros [= <-]. exists a, b. split; [reflexivity|]. left; reflexivity.
  - destruct (0 <? c) eqn:Hc; [|discriminate]. apply Nat.ltb_lt in Hc.
    intros [= <-]. exists a, b. split; [reflexivity|].
    right; left. exists c. split; [reflexivity|assumption].
  - destruct (0 <? a) eqn:Ha; [|discriminate].
    destruct (0 <? e) eqn:He; [|discriminate].
    apply Nat.ltb_lt in Ha, He.
    intros [= <-]. exists b, c. split; [reflexivity|].
    right; right. exists a, e. repeat split; assumption.
Qed.

Lemma postprocess_mask_pixel (m : ndarray A) (img : Image) (i j : nat) :
  well_formed m -> postprocess_mask m = Ok img ->
  i < height img -> j < width img ->
  exists v,
    item m (first_channel_index (ndim m) i j) = Some v
    /\ pixel_at img i j = Some (mask_pixel v).
Proof.
  intros W Hok. destruct (postprocess_mask_ok_inv m Hok) as (h & w & -> & Hs).
  cbn [height width]. intros Hi Hj.
  pose proof (collapsed_length W) as Hlen.
  pose proof (collapsed_nth_error i j W) as Hnth.
  pose proof (grid_offset_lt Hi Hj) as Hg.
  unfold pixel_at, ndim. cbn [height width pixels].
  rewrite (proj2 (Nat.ltb_lt i h) Hi), (proj2 (Nat.ltb_lt j w) Hj).
  cbn [andb]. rewrite nth_error_map.
  assert (Hsome : forall idx,
             length (collapsed m) = h * w ->
             nth_error (collapsed m) (i * w + j) = item m idx ->
             exists v, item m idx = Some v
               /\ option_map mask_pixel (nth_error (collapsed m) (i * w + j))
                  = Some (mask_pixel v)).
  { intros idx Hl Hn.
    destruct (nth_error (collapsed m) (i * w + j)) as [v|] eqn:Ev.
    - exists v. split; [symmetry; exact Hn| reflexivity].
    - apply nth_error_None in Ev. lia. }
  destruct Hs as [E | [(c & E & Hc) | (b & c & E & Hb & Hc)]];
    rewrite E in Hlen, Hnth |- *; cbn [length first_channel_index];
    apply Hsome; auto.
Qed.

(** Tensors of one shape that agree on channel 0 (and batch 0) keep the
    same values. *)
Lemma collapsed_ext (m1 m2 : ndarray A) (img : Image) :
  shape m1 = shape m2 -> well_formed m1 -> well_formed m2 ->
  (forall i j,
      item m1 (first_channel_index (ndim m1) i j)
      = item m2 (first_channel_index (ndim m1) i j)) ->
  postprocess_mask m1 = Ok img ->
  collapsed m1 = collapsed m2.
Proof.
  intros Hs W1 W2 Hag Hok.
  destruct (postprocess_mask_ok_inv m1 Hok) as (h & w & _ & Hsh).
  pose proof (collapsed_length W1) as L1.
  pose proof (collapsed_length W2) as L2.
  assert (N1 := fun i j => collapsed_nth_error i j W1).
  assert (N2 := fun i j => collapsed_nth_error i j W2).
  unfold ndim in Hag. rewrite <- Hs in L2, N2.
  apply nth_error_ext_len with (n := h * w).
  - destruct Hsh as [E | [(c & E & Hc) | (b & c & E & Hb & Hc)]];
      rewrite E in L1; auto.
  - destruct Hsh as [E | [(c & E & Hc) | (b & c & E & Hb & Hc)]];
      rewrite E in L2; auto.
  - intros g Hg. destruct (@grid_position g h w Hg) as (Hi & Hj & Eg).
    rewrite Eg. specialize (Hag (g / w) (g mod w)).
    specialize (N1 (g / w) (g mod w)). specialize (N2 (g / w) (g mod w)).
    destruct Hsh as [E | [(c & E & Hc) | (b & c & E & Hb & Hc)]];
      rewrite E in Hag, N1, N2; cbn [length first_channel_index] in Hag;
      rewrite N1, N2; auto.
Qed.

End PostprocessPixels.

(** C3, as the code has it: a tensor without channels is refused with an
    [IndexError], it is not converted. *)
Lemma postprocess_mask_zero_channels :
  let m := mk_ndarray [1; 2; 2; 0] (@nil float) in
  shape m = [1; 2; 2; 0]
  /\ well_formed m
  /\ postprocess_mask m = Raise (IndexError 0 3 0)
  /\ ~ (exists img, postprocess_mask m = Ok img).
Proof.
  cbv zeta. repeat split; try reflexivity.
  intros [img Himg]. vm_compute in Himg. discriminate.
Qed.

(** C3 (amended): for every well-formed 4-axis tensor of shape (1, h, w, c)
    with at least one channel, [postprocess_mask] succeeds and returns a
    single-band image of height [h] and width [w], with [h * w] pixels that
    are all 0 or 255. *)
Theorem postprocess_mask_4d {A} `{DType A} (m : ndarray A) (h w c : nat) :
  shape m = [1; h; w; c] -> well_formed m -> 0 < c ->
  exists img,
    postprocess_mask m = Ok img
    /\ mode img = L /\ height img = h /\ width img = w
    /\ length (pixels img) = h * w
    /\ Forall binary (pixels img).
Proof.
  intros E W Hc. pose proof (collapsed_length W) as Hlen.
  rewrite (postprocess_mask_cases m). rewrite E in *.
  apply Nat.ltb_lt in Hc as Hc'. rewrite Hc'. change (0 <? 1) with true.
  cbn iota.
  eexists. split; [reflexivity|]. cbn [mode height width pixels].
  repeat split.
  - rewrite length_map. apply Hlen; [lia|assumption].
  - apply Forall_binary_map.
Qed.

Lemma postprocess_mask_4d_witness :
  exists img,
    postprocess_mask scenario_tensor = Ok img
    /\ mode img = L /\ height img = 4 /\ width img = 4
    /\ length (pixels img) = 4 * 4
    /\ Forall binary (pixels img).
Proof.
  apply (@postprocess_mask_4d _ _ scenario_tensor 4 4 1).
  - reflexivity.
  - reflexivity.
  - lia.
Defined.

(** C4: the threshold is a strict greater-than at 0.5.  In the image of a
    converted tensor, the pixel at row [i], column [j] is 0 when the kept
    value (channel 0, batch 0) is at most 0.5 and 255 when it is greater
    than 0.5, and it is 255 in no other case.  A (1, 4, 4, 1) tensor with
    first row [0.1, 0.6, 0.4, 0.9] gives the image row [0, 255, 0, 255],
    and the tensor with four such rows gives four such image rows. *)
Theorem postprocess_mask_threshold :
  (forall A (D : DType A) (m : ndarray A) (img : Image) (i j : nat),
      well_formed m -> postprocess_mask m = Ok img ->
      i < height img -> j < width img ->
      exists v p,
        item m (first_channel_index (ndim m) i j) = Some v
        /\ pixel_at img i j = Some p
        /\ (PrimFloat.leb (to_float64 v) 0.5 = true -> p = x00)
        /\ (PrimFloat.ltb 0.5 (to_float64 v) = true -> p = xff)
        /\ p = (if PrimFloat.ltb 0.5 (to_float64 v) then xff else x00))
  /\ (forall rest : list float,
      exists img,
        postprocess_mask (mk_ndarray [1; 4; 4; 1] (scenario_row ++ rest)) = Ok img
        /\ height img = 4 /\ width img = 4
        /\ firstn 4 (pixels img) = [x00; xff; x00; xff])
  /\ postprocess_mask scenario_tensor = Ok scenario_mask.
Proof.
  split; [|split].
  - intros A D m img i j W Hok Hi Hj.
    destruct (postprocess_mask_pixel W Hok Hi Hj) as (v & Hv & Hp).
    exists v, (mask_pixel v). rewrite mask_pixel_eq.
    repeat split; try assumption.
    + rewrite <- mask_pixel_eq. exact Hp.
    + intros Hle. apply leb_not_ltb in Hle. rewrite Hle. reflexivity.
    + intros Hlt. rewrite Hlt. reflexivity.
  - intros rest. rewrite postprocess_mask_cases. cbn [shape].
    change (0 <? 1) with true. cbn iota.
    eexists. split; [reflexivity|]. repeat split.
  - exact postprocess_scenario.
Qed.

Lemma postprocess_mask_threshold_witness :
  exists v p,
    item scenario_tensor [0; 0; 1; 0] = Some v
    /\ pixel_at scenario_mask 0 1 = Some p
    /\ (PrimFloat.leb v 0.5 = true -> p = x00)
    /\ (PrimFloat.ltb 0.5 v = true -> p = xff)
    /\ p = (if PrimFloat.ltb 0.5 v then xff else x00).
Proof.
  apply (proj1 postprocess_mask_threshold float DType_float64
           scenario_tensor scenario_mask 0 1).
  - reflexivity.
  - exact postprocess_scenario.
  - simpl; lia.
  - simpl; lia.
Defined.

(** C6: a 2-axis tensor of shape (h, w) is converted to an image of height
    [h] and width [w]: no axis is added or removed (the array of the image
    has the shape of the input) and every value is remapped, in place, to 0
    or 255 by the 0.5 threshold. *)
Theorem postprocess_mask_2d {A} `{DType A} (m : ndarray A) (h w : nat) :
  shape m = [h; w] ->
  exists img,
    postprocess_mask m = Ok img
    /\ height img = h /\ width img = w
    /\ shape (np_array img) = shape m
    /\ length (pixels img) = length (data m)
    /\ Forall binary (pixels img)
    /\ (forall k v, nth_error (data m) k = Some v ->
          nth_error (pixels img) k
          = Some (if PrimFloat.ltb 0.5 (to_float64 v) then xff else x00)).
Proof.
  intros E. rewrite (postprocess_mask_cases m). unfold collapsed. rewrite E.
  eexists. split; [reflexivity|]. cbn [height width pixels].
  split; [reflexivity|]. split; [reflexivity|]. split; [reflexivity|].
  split; [apply length_map|]. split; [apply Forall_binary_map|].
  intros k v Hk. rewrite nth_error_map, Hk. cbn [option_map].
  rewrite mask_pixel_eq. reflexivity.
Qed.

Lemma postprocess_mask_2d_witness :
  exists img,
    postprocess_mask two_axis_tensor = Ok img
    /\ height img = 2 /\ width img = 3
    /\ shape (np_array img) = shape two_axis_tensor
    /\ length (pixels img) = length (data two_axis_tensor)
    /\ Forall binary (pixels img)
    /\ (forall k v, nth_error (data two_axis_tensor) k = Some v ->
          nth_error (pixels img) k
          = Some (if PrimFloat.ltb 0.5 v then xff else x00)).
Proof.
  exact (@postprocess_mask_2d float DType_float64 two_axis_tensor 2 3 eq_refl).
Defined.

Example postprocess_two_axes :
  postprocess_mask two_axis_tensor
  = Ok (mk_Image L 3 2 [x00; xff; x00; xff; x00; xff]).
Proof. vm_compute. reflexivity. Qed.

(** C7: the Postprocessor is idempotent on its own output.  The array of an
    image it produced (two axes, values 0 or 255) is converted to that same
    image again; more generally every 2-axis uint8 array with values 0 or
    255 only is converted to an image holding exactly that array. *)
Theorem postprocess_mask_idempotent :
  (forall A (D : DType A) (m : ndarray A) (img : Image),
      postprocess_mask m = Ok img ->
      postprocess_mask (np_array img) = Ok img)
  /\ (forall a : ndarray byte,
      ndim a = 2 -> Forall binary (data a) ->
      exists img, postprocess_mask a = Ok img /\ np_array img = a).
Proof.
  assert (Hstable : forall l, Forall binary l -> map mask_pixel l = l).
  { intros l Hl. induction Hl as [|p l Hp _ IH]; [reflexivity|].
    cbn [map]. rewrite IH, (mask_pixel_stable Hp). reflexivity. }
  split.
  - intros A D m img Hok.
    destruct (postprocess_mask_ok_inv m Hok) as (h & w & -> & _).
    rewrite postprocess_mask_cases. unfold np_array, collapsed.
    cbn [mode bands Nat.eqb shape data height width pixels].
    rewrite Hstable by apply Forall_binary_map. reflexivity.
  - intros [s d] Hn Hb. unfold ndim in Hn. cbn [shape data] in *.
    destruct s as [|h [|w [|c r]]]; try discriminate.
    rewrite postprocess_mask_cases. unfold collapsed. cbn [shape data].
    rewrite (Hstable d Hb). eexists. split; reflexivity.
Qed.

Lemma postprocess_mask_idempotent_witness :
  postprocess_mask (np_array scenario_mask) = Ok scenario_mask.
Proof.
  apply (proj1 postprocess_mask_idempotent float DType_float64
           scenario_tensor scenario_mask).
  exact postprocess_scenario.
Defined.

(** C10: the output depends on the first channel only.  Two well-formed
    tensors of one shape that agree at channel 0 (and, with four axes, batch
    0) of every row and column give the same result, whatever their other
    channels and batch entries hold; this covers 3-axis and 4-axis
    tensors. *)
Theorem postprocess_mask_first_channel_only {A} `{DType A} (m1 m2 : ndarray A) :
  shape m1 = shape m2 -> well_formed m1 -> well_formed m2 ->
  (forall i j,
      item m1 (first_channel_index (ndim m1) i j)
      = item m2 (first_channel_index (ndim m1) i j)) ->
  postprocess_mask m1 = postprocess_mask m2.
Proof.
  intros Hs W1 W2 Hag.
  destruct (postprocess_mask m1) as [img|e] eqn:Hok.
  - pose proof (collapsed_ext Hs W1 W2 Hag Hok) as Hc.
    rewrite postprocess_mask_cases in Hok |- *.
    rewrite <- Hs, <- Hc. symmetry. exact Hok.
  - rewrite postprocess_mask_cases in Hok |- *. rewrite <- Hs.
    destruct (shape m1) as [|a [|b [|c [|f [|g r]]]]]; try (symmetry; exact Hok).
    + discriminate.
    + destruct (0 <? c); [discriminate|symmetry; exact Hok].
    + destruct (0 <? a); [|symmetry; exact Hok].
      destruct (0 <? f); [discriminate|symmetry; exact Hok].
Qed.

Lemma postprocess_mask_first_channel_only_witness :
  postprocess_mask channels_a = postprocess_mask channels_b.
Proof.
  apply (@postprocess_mask_first_channel_only _ _ channels_a channels_b).
  - reflexivity.
  - reflexivity.
  - reflexivity.
  - intros i j. destruct i as [|i]; [|reflexivity].
    destruct j as [|[|j]]; reflexivity.
Defined.

Example postprocess_channels :
  postprocess_mask channels_a = Ok (mk_Image L 2 1 [x00; xff])
  /\ postprocess_mask (mk_ndarray [1; 2; 2] (data channels_a))
     = postprocess_mask (mk_ndarray [1; 2; 2] (data channels_b)).
Proof. split; vm_compute; reflexivity. Qed.

(* ------------------------------------------------------------------ *)
(** ** The Preprocessor *)

(** The float64 value of an 8-bit sample divided by 255.0. *)
Lemma sample_scaled_in_unit_interval (b : byte) :
  in_unit_interval (PrimFloat.div (to_float64 b) 255%float).
Proof.
  destruct b; split; vm_compute; reflexivity.
Qed.

Lemma flat_map_length_const {X Y} (f : X -> list Y) (l : list X) (n : nat) :
  (forall x, length (f x) = n) -> length (flat_map f l) = length l * n.
Proof.
  intros Hf. induction l as [|x l IH]; [reflexivity|].
  cbn [flat_map length]. rewrite length_app, Hf, IH. simpl. lia.
Qed.

Lemma resize_nearest_contract : resize_contract resize_nearest.
Proof.
  intros im tw th Htw Hth. unfold resize_nearest.
  destruct tw as [|tw]; [lia|]. destruct th as [|th]; [lia|].
  cbn [Nat.eqb orb]. eexists. split; [reflexivity|].
  cbn [mode width height pixels]. repeat split.
  rewrite flat_map_length_const with (n := S tw * bands (mode im)).
  - rewrite length_seq. lia.
  - intros y. rewrite flat_map_length_const with (n := bands (mode im)).
    + rewrite length_seq. reflexivity.
    + intros x. rewrite length_map, length_seq. reflexivity.
Qed.

Section Preprocess.

Variable resize : Image -> nat * nat -> result Image.

Lemma scaled_ndim (im : Image) :
  ndim (scaled im) = if bands (mode im) =? 1 then 2 else 3.
Proof.
  unfold scaled, true_divide, amap, np_array, ndim. cbn [shape].
  destruct (bands (mode im) =? 1); reflexivity.
Qed.

(** Whatever [resize] returns, the array has 2 or 3 axes, so the test for
    4 axes fails and the array is only given its batch axis. *)
Lemma preprocess_image_resized (image im : Image) (size : nat * nat) :
  resize image size = Ok im ->
  preprocess_image resize image size = Ok (expand_dims0 (scaled im)).
Proof.
  intros Hr. unfold preprocess_image. rewrite Hr. cbn [bind].
  fold (scaled im). rewrite scaled_ndim.
  destruct (bands (mode im) =? 1); reflexivity.
Qed.

Lemma scaled_data_in_unit_interval (im : Image) :
  Forall in_unit_interval (data (scaled im)).
Proof.
  unfold scaled, true_divide, amap. cbn [data].
  apply Forall_forall. intros v Hv. apply in_map_iff in Hv.
  destruct Hv as [b [<- _]]. apply sample_scaled_in_unit_interval.
Qed.

End Preprocess.

Example preprocess_gray :
  exists arr,
    preprocess_image resize_nearest gray_image (3, 2) = Ok arr
    /\ shape arr = [1; 2; 3].
Proof. eexists. split; vm_compute; reflexivity. Qed.

(** C1, as the code has it: a four-channel image keeps its four channels,
    so the output is not (1, h, w, 3); and the target size goes to
    [Image.resize] as (width, height), so a target of (3, 2) gives an array
    of 2 rows and 3 columns, not (1, 3, 2, 3). *)
Lemma preprocess_image_shape_counterexample :
  resize_contract resize_nearest
  /\ (exists arr,
        preprocess_image resize_nearest rgba_image (2, 2) = Ok arr
        /\ shape arr = [1; 2; 2; 4]
        /\ shape arr <> [1; 2; 2; 3])
  /\ (exists arr,
        preprocess_image resize_nearest rgb_image (3, 2) = Ok arr
        /\ shape arr = [1; 2; 3; 3]
        /\ shape arr <> [1; 3; 2; 3]).
Proof.
  split; [exact resize_nearest_contract|].
  split; eexists; (split; [vm_compute; reflexivity|]);
    (split; [reflexivity|discriminate]).
Qed.

(** C1 (amended): for every input image with three channels, of any width
    and height, and every positive target size given as (width, height), the
    output of the Preprocessor has exactly 4 axes, shape
    (1, height, width, 3): a batch axis of size 1, the target spatial
    dimensions and 3 channels, with dtype float64. *)
Theorem preprocess_image_rgb_shape
    (resize : Image -> nat * nat -> result Image) (image : Image) (tw th : nat) :
  resize_contract resize ->
  bands (mode image) = 3 -> 0 < tw -> 0 < th ->
  exists arr,
    preprocess_image resize image (tw, th) = Ok arr
    /\ ndim arr = 4
    /\ shape arr = [1; th; tw; 3]
    /\ dtype arr = float64
    /\ well_formed arr.
Proof.
  intros Hc Hb Htw Hth.
  destruct (Hc image tw th Htw Hth) as (im & Hr & Hm & Hw & Hh & Hl).
  exists (expand_dims0 (scaled im)).
  split; [apply preprocess_image_resized; exact Hr|].
  unfold well_formed, ndim, scaled, true_divide, amap, np_array, expand_dims0.
  cbn [shape data]. rewrite Hm, Hb, Hw, Hh. cbn [Nat.eqb length].
  repeat split. rewrite length_map, Hl, Hb.
  unfold size_of. cbn [fold_right]. lia.
Qed.

Lemma preprocess_image_rgb_shape_witness :
  exists arr,
    preprocess_image resize_nearest rgb_image (3, 2) = Ok arr
    /\ ndim arr = 4
    /\ shape arr = [1; 2; 3; 3]
    /\ dtype arr = float64
    /\ well_formed arr.
Proof.
  apply (@preprocess_image_rgb_shape resize_nearest rgb_image 3 2).
  - exact resize_nearest_contract.
  - reflexivity.
  - lia.
  - lia.
Defined.

(** C5: every value of the Preprocessor's output lies in the closed
    interval [0, 1].  The samples of an image are 8-bit, 0 to 255, and each
    output value is the float64 quotient of a sample of the resized image by
    255.0. *)
Theorem preprocess_image_unit_interval
    (resize : Image -> nat * nat -> result Image) (image : Image) (tw th : nat) :
  resize_contract resize -> 0 < tw -> 0 < th ->
  exists resized arr,
    resize image (tw, th) = Ok resized
    /\ preprocess_image resize image (tw, th) = Ok arr
    /\ data arr
       = map (fun b : byte => PrimFloat.div (to_float64 b) 255%float) (pixels resized)
    /\ Forall in_unit_interval (data arr).
Proof.
  intros Hc Htw Hth.
  destruct (Hc image tw th Htw Hth) as (im & Hr & _).
  exists im, (expand_dims0 (scaled im)).
  split; [exact Hr|].
  split; [apply preprocess_image_resized; exact Hr|].
  split; [reflexivity|].
  apply scaled_data_in_unit_interval.
Qed.

Lemma preprocess_image_unit_interval_witness :
  exists resized arr,
    resize_nearest gray_image (3, 2) = Ok resized
    /\ preprocess_image resize_nearest gray_image (3, 2) = Ok arr
    /\ data arr
       = map (fun b : byte => PrimFloat.div (to_float64 b) 255%float) (pixels resized)
    /\ Forall in_unit_interval (data arr).
Proof.
  apply (@preprocess_image_unit_interval resize_nearest gray_image 3 2).
  - exact resize_nearest_contract.
  - lia.
  - lia.
Defined.

(** C9: the channel-replication branch is never taken.  The scaled array of
    the resized image has 2 or 3 axes, so the test for 4 axes fails and the
    output is that array with a batch axis in front: shape (1, h, w) for a
    single-channel image and (1, h, w, k) for an image with k channels, the
    channel structure of the input. *)
Theorem preprocess_image_no_replication
    (resize : Image -> nat * nat -> result Image) (image : Image) (tw th : nat) :
  resize_contract resize -> 0 < tw -> 0 < th ->
  exists resized,
    resize image (tw, th) = Ok resized
    /\ (ndim (scaled resized) = 2 \/ ndim (scaled resized) = 3)
    /\ (ndim (scaled resized) =? 4) = false
    /\ preprocess_image resize image (tw, th) = Ok (expand_dims0 (scaled resized))
    /\ shape (expand_dims0 (scaled resized))
       = 1 :: th :: tw ::
           (if bands (mode image) =? 1 then [] else [bands (mode image)]).
Proof.
  intros Hc Htw Hth.
  destruct (Hc image tw th Htw Hth) as (im & Hr & Hm & Hw & Hh & _).
  exists im. split; [exact Hr|].
  rewrite scaled_ndim.
  split; [destruct (bands (mode im) =? 1); auto|].
  split; [destruct (bands (mode im) =? 1); reflexivity|].
  split; [apply preprocess_image_resized; exact Hr|].
  unfold scaled, true_divide, amap, np_array, expand_dims0. cbn [shape].
  rewrite Hm, Hw, Hh. destruct (bands (mode image) =? 1); reflexivity.
Qed.

Lemma preprocess_image_no_replication_witness :
  exists resized,
    resize_nearest gray_image (3, 2) = Ok resized
    /\ (ndim (scaled resized) = 2 \/ ndim (scaled resized) = 3)
    /\ (ndim (scaled resized) =? 4) = false
    /\ preprocess_image resize_nearest gray_image (3, 2)
       = Ok (expand_dims0 (scaled resized))
    /\ shape (expand_dims0 (scaled resized)) = [1; 2; 3].
Proof.
  apply (@preprocess_image_no_replication resize_nearest gray_image 3 2).
  - exact resize_nearest_contract.
  - lia.
  - lia.
Defined.

(* ------------------------------------------------------------------ *)
(** ** More on the Preprocessor *)

Lemma size_of_snoc (s : list nat) (k : nat) : size_of (s ++ [k]) = size_of s * k.
Proof.
  unfold size_of. induction s as [|d s IH]; cbn [app fold_right]; [lia|].
  rewrite IH. lia.
Qed.

Lemma preprocess_image_factors
    (resize : Image -> nat * nat -> result Image) (image : Image) (size : nat * nat) :
  preprocess_image resize image size
  = (resized <- resize image size ;; Ok (replicate_and_batch (scaled resized))).
Proof. reflexivity. Qed.

(** X1: the "Run Model" button and [preprocess_image] prepare the same
    model input: the inline resize, scale and batch steps give, for every
    image and whatever [Image.resize] does, exactly the result of
    [preprocess_image] at its default target size (also when resize
    raises). *)
Theorem run_model_input_is_preprocess_image
    (resize : Image -> nat * nat -> result Image) (selected_image : Image) :
  run_model_input resize selected_image
  = preprocess_image resize selected_image default_target_size.
Proof.
  unfold run_model_input, default_target_size.
  destruct (resize selected_image (256, 256)) as [im|e] eqn:Hr.
  - rewrite (preprocess_image_resized resize selected_image (256, 256) Hr).
    reflexivity.
  - unfold preprocess_image. rewrite Hr. reflexivity.
Qed.

(** X2: the output of [preprocess_image] is a well-formed array: its buffer
    holds exactly as many values as its shape describes, one per sample of
    the resized image, height * width * channels of them. *)
Theorem preprocess_image_well_formed
    (resize : Image -> nat * nat -> result Image) (image : Image) (tw th : nat) :
  resize_contract resize -> 0 < tw -> 0 < th ->
  exists arr,
    preprocess_image resize image (tw, th) = Ok arr
    /\ well_formed arr
    /\ length (data arr) = th * tw * bands (mode image)
    /\ dtype arr = float64.
Proof.
  intros Hc Htw Hth.
  destruct (Hc image tw th Htw Hth) as (im & Hr & Hm & Hw & Hh & Hl).
  exists (expand_dims0 (scaled im)).
  split; [apply preprocess_image_resized; exact Hr|].
  unfold well_formed, scaled, true_divide, amap, np_array, expand_dims0.
  cbn [shape data]. rewrite length_map, Hl, Hm, Hw, Hh.
  repeat split. unfold size_of.
  destruct (bands (mode image) =? 1) eqn:Hb; cbn [fold_right].
  - apply Nat.eqb_eq in Hb. rewrite Hb. lia.
  - lia.
Qed.

Lemma preprocess_image_well_formed_witness :
  exists arr,
    preprocess_image resize_nearest rgba_image (3, 2) = Ok arr
    /\ well_formed arr
    /\ length (data arr) = 2 * 3 * bands (mode rgba_image)
    /\ dtype arr = float64.
Proof.
  apply (@preprocess_image_well_formed resize_nearest rgba_image 3 2).
  - exact resize_nearest_contract.
  - lia.
  - lia.
Defined.

(** X3: what lines 68 to 70 do to an array.  With any axis count but 4 the
    array only gets its batch axis.  With 4 axes every value is written
    three times in a row along a new last axis, and the result has 6 axes,
    shape (1, d0, d1, d2, d3, 3).  So the output has exactly 4 axes if and
    only if the array has 3 axes: a 2-axis (single-channel) array is never
    given channels. *)
Theorem replicate_and_batch_axes (a : ndarray float) :
  (ndim a <> 4 -> replicate_and_batch a = expand_dims0 a)
  /\ (ndim a = 4 ->
      shape (replicate_and_batch a) = 1 :: shape a ++ [3]
      /\ ndim (replicate_and_batch a) = 6
      /\ data (replicate_and_batch a) = flat_map (fun x => [x; x; x]) (data a)
      /\ (well_formed a -> well_formed (replicate_and_batch a)))
  /\ (ndim (replicate_and_batch a) = 4 <-> ndim a = 3).
Proof.
  unfold replicate_and_batch.
  destruct (ndim a =? 4) eqn:E.
  - apply Nat.eqb_eq in E. split; [intros Hn; contradiction|].
    assert (Hnd : ndim (expand_dims0 (stack3_last a)) = 6).
    { unfold ndim in *. cbn [expand_dims0 stack3_last shape length].
      rewrite length_app. cbn [length]. lia. }
    split; [|rewrite Hnd; lia].
    intros _. split; [reflexivity|]. split; [exact Hnd|].
    split; [reflexivity|].
    unfold well_formed. cbn [expand_dims0 stack3_last shape data].
    intros Hwf.
    rewrite (flat_map_length_const (fun x : float => [x; x; x]) (data a) (n := 3))
      by reflexivity.
    change (size_of (1 :: shape a ++ [3])) with (1 * size_of (shape a ++ [3])).
    rewrite Hwf, size_of_snoc. lia.
  - apply Nat.eqb_neq in E. split; [intros _; reflexivity|].
    split; [intros Hn; contradiction|].
    unfold ndim in *. cbn [expand_dims0 shape length]. lia.
Qed.

Lemma all_bytes_complete (b : byte) : In b all_bytes.
Proof.
  assert (H : existsb (Byte.eqb b) all_bytes = true)
    by (destruct b; vm_compute; reflexivity).
  apply existsb_exists in H. destruct H as (x & Hx & Hb).
  apply Byte.byte_dec_bl in Hb. subst x. exact Hx.
Qed.

Lemma scale_sample_order_all :
  forallb (fun b1 =>
    forallb (fun b2 =>
      Bool.eqb (PrimFloat.ltb (scale_sample b1) (scale_sample b2))
               (N.ltb (Byte.to_N b1) (Byte.to_N b2)))
      all_bytes) all_bytes = true.
Proof. vm_compute. reflexivity. Qed.

Lemma scale_sample_ltb (b1 b2 : byte) :
  PrimFloat.ltb (scale_sample b1) (scale_sample b2)
  = N.ltb (Byte.to_N b1) (Byte.to_N b2).
Proof.
  pose proof scale_sample_order_all as Hall.
  rewrite forallb_forall in Hall. specialize (Hall b1 (all_bytes_complete b1)).
  rewrite forallb_forall in Hall. specialize (Hall b2 (all_bytes_complete b2)).
  apply Bool.eqb_prop in Hall. exact Hall.
Qed.

Lemma scale_sample_inj (b1 b2 : byte) :
  scale_sample b1 = scale_sample b2 -> b1 = b2.
Proof.
  intros Heq.
  pose proof (scale_sample_ltb b1 b2) as H12.
  pose proof (scale_sample_ltb b2 b1) as H21.
  pose proof (scale_sample_ltb b1 b1) as H11. rewrite N.ltb_irrefl in H11.
  rewrite <- Heq in H12, H21. rewrite H11 in H12, H21.
  symmetry in H12, H21. apply N.ltb_ge in H12, H21.
  assert (HN : Byte.to_N b1 = Byte.to_N b2) by lia.
  pose proof (Byte.of_to_N b1) as E1. pose proof (Byte.of_to_N b2) as E2.
  rewrite HN in E1. congruence.
Qed.

(** X4: scaling by [255.0] keeps the order of the samples and loses none:
    [a / 255.0 < b / 255.0] in float64 exactly when [a < b], so distinct
    samples give distinct values; sample 0 gives 0.0 and sample 255 gives
    1.0 exactly. *)
Theorem scale_sample_order (b1 b2 : byte) :
  (PrimFloat.ltb (scale_sample b1) (scale_sample b2) = true
   <-> (Byte.to_N b1 < Byte.to_N b2)%N)
  /\ (scale_sample b1 = scale_sample b2 -> b1 = b2)
  /\ scale_sample x00 = 0%float
  /\ scale_sample xff = 1%float.
Proof.
  split; [rewrite scale_sample_ltb; apply N.ltb_lt|].
  split; [apply scale_sample_inj|].
  split; vm_compute; reflexivity.
Qed.

Lemma scaled_data (im : Image) : data (scaled im) = map scale_sample (pixels im).
Proof. reflexivity. Qed.

Lemma map_scale_sample_inj (l1 l2 : list byte) :
  map scale_sample l1 = map scale_sample l2 -> l1 = l2.
Proof.
  revert l2. induction l1 as [|b1 l1 IH]; intros [|b2 l2] Hm;
    try discriminate; [reflexivity|].
  cbn [map] in Hm. injection Hm as Hb Hl.
  apply scale_sample_inj in Hb.
  rewrite Hb, (IH l2 Hl). reflexivity.
Qed.

(** X5: preprocessing loses nothing of the resized image.  When two runs of
    [preprocess_image] return the same tensor, the two resized images have
    the same array: the same height, width and channels and the same
    samples. *)
Theorem preprocess_image_lossless
    (resize : Image -> nat * nat -> result Image)
    (image1 image2 resized1 resized2 : Image) (size1 size2 : nat * nat) :
  resize image1 size1 = Ok resized1 ->
  resize image2 size2 = Ok resized2 ->
  preprocess_image resize image1 size1 = preprocess_image resize image2 size2 ->
  np_array resized1 = np_array resized2.
Proof.
  intros H1 H2 Heq.
  rewrite (preprocess_image_resized resize image1 size1 H1) in Heq.
  rewrite (preprocess_image_resized resize image2 size2 H2) in Heq.
  injection Heq as Hs Hd.
  apply map_scale_sample_inj in Hd.
  unfold np_array. rewrite Hs, Hd. reflexivity.
Qed.

Lemma preprocess_image_lossless_witness :
  np_array (mk_Image L 3 2 [x00; x00; xff; x80; x80; x01])
  = np_array (mk_Image L 3 2 [x00; x00; xff; x80; x80; x01]).
Proof.
  apply (@preprocess_image_lossless resize_nearest gray_image gray_image
           _ _ (3, 2) (3, 2)).
  - vm_compute. reflexivity.
  - vm_compute. reflexivity.
  - reflexivity.
Defined.

(* ------------------------------------------------------------------ *)
(** ** More on the Postprocessor *)

(** X6: a well-formed 3-axis tensor of shape (h, w, c) with at least one
    channel is converted to a single-band image of height [h] and width [w]
    whose pixel at row [i], column [j] is 255 when [m[i, j, 0] > 0.5] and 0
    otherwise: only channel 0 is read. *)
Theorem postprocess_mask_3d {A} `{DType A} (m : ndarray A) (h w c : nat) :
  shape m = [h; w; c] -> well_formed m -> 0 < c ->
  exists img,
    postprocess_mask m = Ok img
    /\ mode img = L /\ height img = h /\ width img = w
    /\ length (pixels img) = h * w
    /\ Forall binary (pixels img)
    /\ (forall i j, i < h -> j < w ->
          exists v,
            item m [i; j; 0] = Some v
            /\ pixel_at img i j
               = Some (if PrimFloat.ltb 0.5 (to_float64 v) then xff else x00)).
Proof.
  intros E W Hc. pose proof (collapsed_length W) as Hlen.
  pose proof (postprocess_mask_cases m) as Hcases. rewrite E in Hlen, Hcases.
  apply Nat.ltb_lt in Hc as Hc'. rewrite Hc' in Hcases.
  eexists. split; [exact Hcases|]. cbn [mode height width pixels].
  repeat split.
  - rewrite length_map. apply Hlen. exact Hc.
  - apply Forall_binary_map.
  - intros i j Hi Hj.
    destruct (@postprocess_mask_pixel _ _ m _ i j W Hcases Hi Hj) as (v & Hv & Hp).
    unfold ndim in Hv. rewrite E in Hv. cbn [length first_channel_index] in Hv.
    exists v. split; [exact Hv|]. rewrite <- mask_pixel_eq. exact Hp.
Qed.

Lemma postprocess_mask_3d_witness :
  exists img,
    postprocess_mask three_axis_tensor = Ok img
    /\ mode img = L /\ height img = 1 /\ width img = 2
    /\ length (pixels img) = 1 * 2
    /\ Forall binary (pixels img)
    /\ (forall i j, i < 1 -> j < 2 ->
          exists v,
            item three_axis_tensor [i; j; 0] = Some v
            /\ pixel_at img i j
               = Some (if PrimFloat.ltb 0.5 v then xff else x00)).
Proof.
  exact (@postprocess_mask_3d float DType_float64 three_axis_tensor 1 2 2
           eq_refl eq_refl (Nat.lt_0_succ 1)).
Defined.

(** X7: [postprocess_mask] returns an image exactly for a 2-axis tensor, a
    3-axis tensor with a non-empty last axis and a 4-axis tensor with
    non-empty first and last axes.  The image is then single-band with
    pixels 0 or 255 only, and [Image.fromarray] never refuses its
    argument. *)
Theorem postprocess_mask_ok_iff {A} `{DType A} (m : ndarray A) :
  ((exists img, postprocess_mask m = Ok img)
   <-> ((exists h w, shape m = [h; w])
        \/ (exists h w c, shape m = [h; w; c] /\ 0 < c)
        \/ (exists b h w c, shape m = [b; h; w; c] /\ 0 < b /\ 0 < c)))
  /\ (forall img, postprocess_mask m = Ok img ->
        mode img = L /\ Forall binary (pixels img)
        /\ hd_error (shape m) <> None /\ ndim (np_array img) = 2)
  /\ (forall msg, postprocess_mask m <> Raise (TypeError msg)).
Proof.
  split; [split|split].
  - intros [img Hok].
    destruct (postprocess_mask_ok_inv m Hok) as (h & w & _ & Hs).
    destruct Hs as [E | [(c & E & Hc) | (b & c & E & Hb & Hc)]].
    + left. exists h, w. exact E.
    + right; left. exists h, w, c. split; assumption.
    + right; right. exists b, h, w, c. repeat split; assumption.
  - rewrite (postprocess_mask_cases m).
    intros [(h & w & E) | [(h & w & c & E & Hc) | (b & h & w & c & E & Hb & Hc)]];
      rewrite E.
    + eexists; reflexivity.
    + apply Nat.ltb_lt in Hc. rewrite Hc. eexists; reflexivity.
    + apply Nat.ltb_lt in Hb, Hc. rewrite Hb, Hc. eexists; reflexivity.
  - intros img Hok.
    destruct (postprocess_mask_ok_inv m Hok) as (h & w & -> & Hs).
    cbn [mode pixels]. split; [reflexivity|]. split; [apply Forall_binary_map|].
    split; [|reflexivity].
    destruct Hs as [E | [(c & E & Hc) | (b & c & E & Hb & Hc)]];
      rewrite E; discriminate.
  - intros msg. rewrite (postprocess_mask_cases m).
    destruct (shape m) as [|a [|b [|c [|e [|f r]]]]]; try discriminate.
    + destruct (0 <? c); discriminate.
    + destruct (0 <? a); [|discriminate]. destruct (0 <? e); discriminate.
Qed.

(** X8: the [IndexError]s of [postprocess_mask].  It raises one exactly
    when an axis it indexes is empty: the last axis of a 3-axis tensor
    (axis 2), the first axis of a 4-axis tensor (axis 0), or, when that one
    is not empty, its last axis (axis 3).  The error is always for index 0
    on an axis of size 0. *)
Theorem postprocess_mask_index_error {A} `{DType A}
    (m : ndarray A) (index axis size : nat) :
  postprocess_mask m = Raise (IndexError index axis size)
  <-> index = 0 /\ size = 0
      /\ ((exists h w, shape m = [h; w; 0] /\ axis = 2)
          \/ (exists h w c, shape m = [0; h; w; c] /\ axis = 0)
          \/ (exists b h w, shape m = [b; h; w; 0] /\ 0 < b /\ axis = 3)).
Proof.
  rewrite (postprocess_mask_cases m). unfold unexpected_shape.
  destruct (shape m) as [|a [|b [|c [|e [|f r]]]]].
  1, 2, 3, 6:
    (split;
     [ intros Hr; discriminate
     | intros (_ & _ & [(h & w & E & _) | [(h & w & c' & E & _) | (b' & h & w & E & _)]]);
       discriminate ]).
  - destruct c as [|c]; cbn [Nat.ltb Nat.leb].
    + split.
      * intros [= <- <- <-]. repeat split. left. exists a, b. split; reflexivity.
      * intros (-> & -> & [(h & w & E & ->) | [(h & w & c' & E & _) | (b' & h & w & E & _)]]);
          try discriminate. reflexivity.
    + split; [intros Hr; discriminate|].
      intros (_ & _ & [(h & w & E & _) | [(h & w & c' & E & _) | (b' & h & w & E & _)]]);
        discriminate.
  - destruct a as [|a]; cbn [Nat.ltb Nat.leb].
    + split.
      * intros [= <- <- <-]. repeat split. right; left. exists b, c, e.
        split; reflexivity.
      * intros (-> & -> & [(h & w & E & _) | [(h & w & c' & E & ->) | (b' & h & w & E & Hb & _)]]);
          try discriminate; [reflexivity|].
        injection E as <- _ _ _. lia.
    + destruct e as [|e]; cbn [Nat.ltb Nat.leb].
      * split.
        -- intros [= <- <- <-]. repeat split. right; right. exists (S a), b, c.
           repeat split. lia.
        -- intros (-> & -> & [(h & w & E & _) | [(h & w & c' & E & _) | (b' & h & w & E & _ & ->)]]);
             try discriminate. reflexivity.
      * split; [intros Hr; discriminate|].
        intros (_ & _ & [(h & w & E & _) | [(h & w & c' & E & _) | (b' & h & w & E & _)]]);
          discriminate.
Qed.

(** X9: the batch and channel axes can be dropped beforehand.  For a 4-axis
    tensor with non-empty first and last axes, [postprocess_mask] gives the
    same result on the tensor, on its first batch entry [m[0]] (3 axes) and
    on [m[0][..., 0]] (2 axes). *)
Theorem postprocess_mask_drops_axes {A} `{DType A} (m : ndarray A) (b h w c : nat) :
  shape m = [b; h; w; c] -> 0 < b -> 0 < c ->
  exists m3 m2,
    index_first 0 m = Ok m3 /\ shape m3 = [h; w; c]
    /\ index_last 0 m3 = Ok m2 /\ shape m2 = [h; w]
    /\ postprocess_mask m = postprocess_mask m3
    /\ postprocess_mask m3 = postprocess_mask m2.
Proof.
  intros E Hb Hc. apply Nat.ltb_lt in Hb as Hb', Hc as Hc'.
  set (m3 := mk_ndarray [h; w; c] (firstn (size_of [h; w; c]) (data m))).
  set (m2 := mk_ndarray [h; w] (strided c 0 (size_of [h; w]) (data m3))).
  exists m3, m2.
  split; [unfold index_first; rewrite E, Hb'; reflexivity|].
  split; [reflexivity|].
  split; [unfold index_last, index_last_from; cbn [m3 shape rev app];
          rewrite Hc'; reflexivity|].
  split; [reflexivity|].
  rewrite !postprocess_mask_cases. unfold collapsed. cbn [m2 m3 shape data].
  rewrite E, Hb', Hc'. split; reflexivity.
Qed.

Lemma postprocess_mask_drops_axes_witness :
  exists m3 m2,
    index_first 0 channels_a = Ok m3 /\ shape m3 = [1; 2; 2]
    /\ index_last 0 m3 = Ok m2 /\ shape m2 = [1; 2]
    /\ postprocess_mask channels_a = postprocess_mask m3
    /\ postprocess_mask m3 = postprocess_mask m2.
Proof.
  apply (@postprocess_mask_drops_axes _ _ channels_a 1 1 2 2).
  - reflexivity.
  - lia.
  - lia.
Defined.

(* ------------------------------------------------------------------ *)
(** ** Dicts and the session state *)

Section DictFacts.
Context {V : Type}.

Lemma dict_find_setitem_same (k : string) (v : V) (d : dict V) :
  dict_find k (dict_setitem k v d) = Some v.
Proof.
  induction d as [|[k' v'] d IH]; cbn [dict_setitem dict_find].
  - rewrite String.eqb_refl. reflexivity.
  - destruct (String.eqb k k') eqn:E; cbn [dict_find]; rewrite ?String.eqb_refl, ?E;
      [reflexivity|exact IH].
Qed.

Lemma dict_find_setitem_other (k k' : string) (v : V) (d : dict V) :
  k' <> k -> dict_find k' (dict_setitem k v d) = dict_find k' d.
Proof.
  intros Hne. induction d as [|[k0 v0] d IH]; cbn [dict_setitem dict_find].
  - apply String.eqb_neq in Hne. rewrite Hne. reflexivity.
  - destruct (String.eqb k k0) eqn:E; cbn [dict_find].
    + apply String.eqb_eq in E. subst k0.
      apply String.eqb_neq in Hne. rewrite Hne. reflexivity.
    + rewrite IH. reflexivity.
Qed.


End DictFacts.

Section SessionFacts.

Lemma preserves_ret {A} (a : A) : preserves_session (ret a).
Proof. intros s. reflexivity. Qed.

Lemma preserves_throw {A} (e : py_exn) : preserves_session (@throw A e).
Proof. intros s. reflexivity. Qed.

Lemma preserves_lift {A} (r : result A) : preserves_session (lift r).
Proof. intros s. destruct r; reflexivity. Qed.

Lemma preserves_of_outcome {A} (o : outcome A) : preserves_session (of_outcome o).
Proof. intros s. reflexivity. Qed.

Lemma preserves_emit (c : container) (w : call) : preserves_session (emit c w).
Proof. intros s. reflexivity. Qed.

Lemma preserves_column (n idx : nat) : preserves_session (column n idx).
Proof. intros s. unfold column. destruct (idx <? n); reflexivity. Qed.

Lemma preserves_session_getitem (k : string) : preserves_session (session_getitem k).
Proof. intros s. reflexivity. Qed.

Lemma preserves_and_then {A B} (m : App A) (k : A -> App B) :
  preserves_session m -> (forall a, preserves_session (k a)) ->
  preserves_session (and_then m k).
Proof.
  intros Hm Hk s. unfold and_then. specialize (Hm s).
  destruct (m s) as [s' [a|e]]; cbn [fst] in *.
  - rewrite (Hk a s'). exact Hm.
  - exact Hm.
Qed.

End SessionFacts.

Create HintDb session.

#[local] Hint Resolve preserves_ret preserves_throw preserves_lift
  preserves_of_outcome preserves_emit preserves_column
  preserves_session_getitem : session.

Ltac preserves :=
  repeat first
    [ solve [eauto with session]
    | apply preserves_and_then; [|intros ?]
    | match goal with
      | |- preserves_session (if ?b then _ else _) => destruct b
      | |- preserves_session (match ?o with Some _ => _ | None => _ end) => destruct o
      | |- preserves_session (let '(_, _) := ?p in _) => destruct p
      end ].

(** X10: the initialisation of the session slot.  After lines 61 and 62
    the key "generated_mask" is present; a value that was there, a mask
    included, is kept, and only a missing key is set to [None].  Nothing
    else in the session changes, no call is made, and running the lines
    again changes nothing. *)
Theorem init_session_state_keeps_mask (s : page_state) :
  exists s',
    init_session_state s = (s', Return tt)
    /\ calls s' = calls s
    /\ mask_slot s' <> None
    /\ (forall v, mask_slot s = Some v -> s' = s)
    /\ (mask_slot s = None -> mask_slot s' = Some None)
    /\ (forall k, k <> "generated_mask"%string ->
          dict_find k (session s') = dict_find k (session s))
    /\ init_session_state s' = (s', Return tt).
Proof.
  unfold init_session_state, and_then, session_contains, session_setitem, ret,
    mask_slot, dict_contains.
  destruct s as [sess log]. cbn [session calls].
  destruct (dict_find "generated_mask" sess) as [v|] eqn:E; cbn [negb].
  - eexists. split; [reflexivity|]. cbn [session calls]. rewrite E.
    repeat split; try reflexivity; try discriminate.
  - eexists. split; [reflexivity|]. cbn [session calls].
    rewrite dict_find_setitem_same. cbn [negb].
    repeat split; try reflexivity; try discriminate.
    intros k Hk. apply dict_find_setitem_other. exact Hk.
Qed.

(* ------------------------------------------------------------------ *)
(** ** The "Generate Mask" block *)

Lemma is_mask_postprocess {A} `{DType A} (m : ndarray A) (img : Image) :
  postprocess_mask m = Ok img -> is_mask img.
Proof.
  intros Hok. destruct (postprocess_mask_ok_inv m Hok) as (h & w & -> & _).
  split; [reflexivity|apply Forall_binary_map].
Qed.

Section MaskBlock.

Variable resize : Image -> nat * nat -> result Image.
Variable model_t : Type.
Variable predict : model_t -> ndarray float -> result (ndarray float).
Variable segmentation_model : model_t.

Lemma mask_block_clicked (selected_image : Image) (s : page_state) :
  mask_block resize predict segmentation_model (Some selected_image) true s
  = let log := calls s ++ [(Col 0, st_image selected_image (Some "Original Image"%string) None (Some true));
                           (Page, st_button "Generate Mask")] in
    match generate resize predict segmentation_model selected_image with
    | Ok mask_image =>
        (mk_page_state
           (dict_setitem "generated_mask" (Some mask_image) (session s))
           (log ++ [(Col 1, st_image mask_image (Some "Generated Mask"%string) None (Some true))]),
         Return tt)
    | Raise e => (mk_page_state (session s) log, Throw (Core e))
    end.
Proof.
  unfold mask_block, generate, and_then, emit, lift, ret, throw,
    session_setitem, session_getitem, dict_getitem.
  cbn [session calls]. rewrite <- app_assoc. cbn [app].
  destruct (preprocess_image resize selected_image default_target_size)
    as [x|e]; cbn [bind]; [|reflexivity].
  destruct (predict segmentation_model x) as [m|e]; cbn [bind]; [|reflexivity].
  destruct (postprocess_mask m) as [img|e]; [|reflexivity].
  cbn [session calls]. rewrite dict_find_setitem_same. reflexivity.
Qed.

Lemma mask_block_not_clicked (selected_image : Image) (s : page_state) :
  mask_block resize predict segmentation_model (Some selected_image) false s
  = let log := calls s ++ [(Col 0, st_image selected_image (Some "Original Image"%string) None (Some true));
                           (Page, st_button "Generate Mask")] in
    match mask_slot s with
    | Some (Some m) =>
        (mk_page_state (session s)
           (log ++ [(Col 1, st_image m (Some "Generated Mask"%string) None (Some true))]),
         Return tt)
    | Some None => (mk_page_state (session s) log, Return tt)
    | None => (mk_page_state (session s) log, Throw (KeyError "generated_mask"))
    end.
Proof.
  unfold mask_block, and_then, emit, ret, session_getitem, dict_getitem, mask_slot.
  cbn [session calls]. rewrite <- app_assoc. cbn [app].
  destruct (dict_find "generated_mask" (session s)) as [[m|]|]; reflexivity.
Qed.

End MaskBlock.

(** X11: a successful "Generate Mask".  When the model answers the
    preprocessed image with a well-formed tensor of shape (1, h, w, c),
    c >= 1, the block stores under "generated_mask" the postprocessed
    prediction, a single-band image of height [h] and width [w] with pixels
    0 or 255, replacing what was stored before, and shows the selected
    image, the button and that same mask, in this order. *)
Theorem mask_block_stores_mask
    (resize : Image -> nat * nat -> result Image) (model_t : Type)
    (predict : model_t -> ndarray float -> result (ndarray float))
    (segmentation_model : model_t) (selected_image : Image)
    (x m : ndarray float) (h w c : nat) (s : page_state) :
  preprocess_image resize selected_image default_target_size = Ok x ->
  predict segmentation_model x = Ok m ->
  shape m = [1; h; w; c] -> well_formed m -> 0 < c ->
  exists mask_image,
    postprocess_mask m = Ok mask_image
    /\ is_mask mask_image /\ height mask_image = h /\ width mask_image = w
    /\ mask_block resize predict segmentation_model (Some selected_image) true s
       = (mk_page_state
            (dict_setitem "generated_mask" (Some mask_image) (session s))
            (calls s
             ++ [(Col 0, st_image selected_image (Some "Original Image"%string) None (Some true));
                 (Page, st_button "Generate Mask");
                 (Col 1, st_image mask_image (Some "Generated Mask"%string) None (Some true))]),
          Return tt)
    /\ mask_slot (fst (mask_block resize predict segmentation_model
                         (Some selected_image) true s))
       = Some (Some mask_image).
Proof.
  intros Hx Hm Hs Hwf Hc.
  pose proof (postprocess_mask_cases m) as Hok. rewrite Hs in Hok.
  apply Nat.ltb_lt in Hc. rewrite Hc in Hok. change (0 <? 1) with true in Hok.
  cbn iota in Hok.
  eexists. split; [exact Hok|].
  split; [split; [reflexivity|apply Forall_binary_map]|].
  split; [reflexivity|]. split; [reflexivity|].
  rewrite mask_block_clicked. unfold generate. rewrite Hx. cbn [bind].
  rewrite Hm. cbn [bind]. rewrite Hok. cbv zeta. rewrite <- app_assoc. cbn [app].
  split; [reflexivity|].
  unfold mask_slot. cbn [fst session]. apply dict_find_setitem_same.
Qed.

Lemma mask_block_stores_mask_witness :
  exists mask_image,
    postprocess_mask scenario_tensor = Ok mask_image
    /\ is_mask mask_image /\ height mask_image = 4 /\ width mask_image = 4
    /\ mask_block resize_nearest (constant_predict scenario_tensor) tt
         (Some gray_image) true new_session
       = (mk_page_state
            (dict_setitem "generated_mask" (Some mask_image) (session new_session))
            (calls new_session
             ++ [(Col 0, st_image gray_image (Some "Original Image"%string) None (Some true));
                 (Page, st_button "Generate Mask");
                 (Col 1, st_image mask_image (Some "Generated Mask"%string) None (Some true))]),
          Return tt)
    /\ mask_slot (fst (mask_block resize_nearest (constant_predict scenario_tensor) tt
                         (Some gray_image) true new_session))
       = Some (Some mask_image).
Proof.
  apply (@mask_block_stores_mask resize_nearest unit
           (constant_predict scenario_tensor) tt gray_image
           (expand_dims0 (scaled (mk_Image L 256 256
              (pixels_of (resize_nearest gray_image default_target_size)))))
           scenario_tensor 4 4 1 new_session).
  - apply preprocess_image_resized. reflexivity.
  - reflexivity.
  - reflexivity.
  - reflexivity.
  - lia.
Defined.


(* ------------------------------------------------------------------ *)
(** ** The session state over whole runs *)

Lemma init_session_state_eq (s : page_state) :
  init_session_state s
  = match mask_slot s with
    | Some _ => (s, Return tt)
    | None =>
        (mk_page_state (dict_setitem "generated_mask" None (session s)) (calls s),
         Return tt)
    end.
Proof.
  unfold init_session_state, and_then, session_contains, session_setitem, ret,
    mask_slot, dict_contains.
  destruct (dict_find "generated_mask" (session s)); reflexivity.
Qed.

Section Preserving.

Variable resize : Image -> nat * nat -> result Image.
Variable image_open : string -> result Image.
Variable uploaded_file_t : Type.
Variable image_open_upload : uploaded_file_t -> result Image.
Variable model_t : Type.
Variable predict : model_t -> ndarray float -> result (ndarray float).

Lemma preserves_show_samples (n_cols idx : nat) (items : dict string) :
  preserves_session (show_samples image_open n_cols idx items).
Proof.
  revert idx. induction items as [|[label path] items IH]; intros idx;
    cbn [show_samples]; preserves.
Qed.

Lemma preserves_sample_buttons (n_cols idx : nat) (clicked : string -> bool)
    (items : dict string) (selected_image : option Image) :
  preserves_session
    (sample_buttons image_open n_cols idx clicked items selected_image).
Proof.
  revert idx selected_image.
  induction items as [|[label path] items IH]; intros idx selected_image;
    cbn [sample_buttons]; preserves.
Qed.

Lemma preserves_select_image (n_cols : nat) (items : dict string)
    (clicked : string -> bool) (uploaded_file : option uploaded_file_t) :
  preserves_session
    (select_image image_open image_open_upload n_cols items clicked uploaded_file).
Proof.
  unfold select_image. pose proof preserves_show_samples.
  pose proof preserves_sample_buttons. preserves.
Qed.

Lemma preserves_run_model_block (height_model segmentation_model : model_t)
    (model_type : string) (selected_image : option Image) (run_clicked : bool) :
  preserves_session
    (run_model_block resize predict height_model segmentation_model
       model_type selected_image run_clicked).
Proof. unfold run_model_block. preserves. Qed.

Lemma preserves_show_pair (pairs : dict (string * string))
    (selected_pair : option string) :
  preserves_session (show_pair image_open pairs selected_pair).
Proof.
  unfold show_pair. destruct selected_pair as [[|a k]|]; preserves.
Qed.

End Preserving.

Lemma preserves_render_member (load_file : string -> result unit)
    (c : container) (member : dict string) :
  preserves_session (render_member load_file c member).
Proof. unfold render_member. preserves. Qed.

Lemma preserves_render_team_from (load_file : string -> result unit)
    (idx : nat) (members : list (dict string)) :
  preserves_session (render_team_from load_file idx members).
Proof.
  revert idx. induction members as [|m members IH]; intros idx;
    cbn [render_team_from]; pose proof (preserves_render_member load_file);
    preserves.
Qed.

(** What one fragment may do to the slot and to the other keys. *)
Lemma script_fragment_session (m : App unit) (s : page_state) :
  script_fragment m ->
  (forall k, k <> "generated_mask"%string ->
     dict_find k (session (fst (m s))) = dict_find k (session s))
  /\ (mask_slot (fst (m s)) = mask_slot s
      \/ (mask_slot s = None /\ mask_slot (fst (m s)) = Some None)
      \/ (exists img, is_mask img /\ mask_slot (fst (m s)) = Some (Some img))).
Proof.
  assert (Hpres : forall m' : App unit, preserves_session m' ->
            (forall k, k <> "generated_mask"%string ->
               dict_find k (session (fst (m' s))) = dict_find k (session s))
            /\ (mask_slot (fst (m' s)) = mask_slot s
                \/ (mask_slot s = None /\ mask_slot (fst (m' s)) = Some None)
                \/ (exists img, is_mask img
                                /\ mask_slot (fst (m' s)) = Some (Some img)))).
  { intros m' Hm'. unfold mask_slot. rewrite (Hm' s). split; [reflexivity|].
    left; reflexivity. }
  intros [ | io U iou n items clicked up | rs M pr seg sel gen
           | rs M pr hm sm ty sel run | io pairs sel | lf members ].
  - rewrite init_session_state_eq.
    destruct (mask_slot s) as [v|] eqn:E; cbn [fst session].
    + split; [reflexivity|]. left. exact E.
    + split; [intros k Hk; apply dict_find_setitem_other; exact Hk|].
      right; left. split; [reflexivity|].
      unfold mask_slot. cbn [session]. apply dict_find_setitem_same.
  - apply Hpres. pose proof (preserves_select_image io iou). preserves.
  - destruct sel as [image|]; [|apply Hpres; unfold mask_block; preserves].
    destruct gen.
    + rewrite mask_block_clicked. cbv zeta.
      destruct (generate rs pr seg image) as [img|e] eqn:G; cbn [fst session].
      * split; [intros k Hk; apply dict_find_setitem_other; exact Hk|].
        right; right. exists img. split.
        -- unfold generate in G.
           destruct (preprocess_image rs image default_target_size) as [x|];
             cbn [bind] in G; [|discriminate].
           destruct (pr seg x) as [t|]; cbn [bind] in G; [|discriminate].
           exact (is_mask_postprocess t G).
        -- unfold mask_slot. cbn [session]. apply dict_find_setitem_same.
      * split; [reflexivity|]. left. reflexivity.
    + rewrite mask_block_not_clicked. cbv zeta.
      destruct (mask_slot s) as [[mimg|]|] eqn:E; cbn [fst session];
        (split; [reflexivity|]); left; unfold mask_slot; cbn [session]; exact E.
  - apply Hpres. apply preserves_run_model_block.
  - apply Hpres. apply preserves_show_pair.
  - apply Hpres. apply preserves_render_team_from.
Qed.

(** X13: the session slot over any number of runs.  Whatever fragments of
    the script run, in any order and with any inputs, failed ones included:
    a slot that holds a mask goes on holding a mask (nothing ever clears
    it), an initialised slot stays initialised, the slot only ever holds
    single-band images with pixels 0 or 255 if it did so at the start, and
    no other key of the session state is written. *)
Theorem session_slot_invariant (fragments : list (App unit)) (s : page_state) :
  Forall script_fragment fragments ->
  (slot_ok s -> slot_ok (run_all fragments s))
  /\ (mask_slot s <> None -> mask_slot (run_all fragments s) <> None)
  /\ (forall img, mask_slot s = Some (Some img) ->
        exists img', mask_slot (run_all fragments s) = Some (Some img'))
  /\ (forall k, k <> "generated_mask"%string ->
        dict_find k (session (run_all fragments s)) = dict_find k (session s)).
Proof.
  intros Hall. revert s.
  induction Hall as [|m fragments Hm _ IH]; intros s; cbn [run_all].
  - repeat split; auto. intros img Himg. exists img. exact Himg.
  - destruct (script_fragment_session s Hm) as [Hother Hslot].
    destruct (IH (fst (m s))) as (I1 & I2 & I3 & I4).
    repeat split.
    + intros Hok. apply I1. unfold slot_ok in *.
      destruct Hslot as [E | [[_ E] | (img & Hmask & E)]]; rewrite E; auto.
    + intros Hne. apply I2.
      destruct Hslot as [E | [[E _] | (img & _ & E)]]; rewrite ?E; congruence.
    + intros img Himg.
      destruct Hslot as [E | [[E _] | (img' & _ & E)]];
        [apply (I3 img); congruence | congruence | apply (I3 img'); exact E].
    + intros k Hk. rewrite (I4 k Hk). apply Hother. exact Hk.
Qed.

Lemma session_slot_invariant_witness :
  let fragments :=
    [init_session_state;
     mask_block resize_nearest (constant_predict scenario_tensor) tt
       (Some gray_image) true;
     init_session_state;
     mask_block resize_nearest (constant_predict three_axis_tensor) tt
       None true;
     render_team load_any team_members] in
  (slot_ok new_session -> slot_ok (run_all fragments new_session))
  /\ (mask_slot new_session <> None ->
      mask_slot (run_all fragments new_session) <> None)
  /\ (forall img, mask_slot new_session = Some (Some img) ->
        exists img', mask_slot (run_all fragments new_session) = Some (Some img'))
  /\ (forall k, k <> "generated_mask"%string ->
        dict_find k (session (run_all fragments new_session))
        = dict_find k (session new_session)).
Proof.
  cbv zeta. apply session_slot_invariant.
  apply Forall_cons; [exact fragment_init|].
  apply Forall_cons; [apply fragment_mask|].
  apply Forall_cons; [exact fragment_init|].
  apply Forall_cons; [apply fragment_mask|].
  apply Forall_cons; [apply fragment_team|].
  apply Forall_nil.
Defined.

(* ------------------------------------------------------------------ *)
(** ** The team page *)

Lemma succ_parity (idx : nat) : (S idx mod 2 =? 0) = negb (idx mod 2 =? 0).
Proof.
  replace (S idx) with (1 + idx) by reflexivity.
  rewrite Nat.Div0.add_mod. pose proof (Nat.mod_upper_bound idx 2).
  destruct (idx mod 2) as [|[|k]]; [reflexivity|reflexivity|lia].
Qed.

Lemma calls_in_app (c : container) (l1 l2 : list (container * call)) :
  calls_in c (l1 ++ l2) = calls_in c l1 ++ calls_in c l2.
Proof. unfold calls_in. rewrite filter_app, map_app. reflexivity. Qed.

Lemma calls_in_same (c : container) (ws : list call) :
  calls_in c (map (pair c) ws) = ws.
Proof.
  unfold calls_in. induction ws as [|w ws IH]; [reflexivity|].
  cbn [map filter fst]. destruct c as [|i]; cbn [container_eqb];
    rewrite ?Nat.eqb_refl; cbn [map snd]; rewrite IH; reflexivity.
Qed.

Lemma calls_in_other (c c' : container) (ws : list call) :
  container_eqb c' c = false -> calls_in c (map (pair c') ws) = [].
Proof.
  intros Hne. unfold calls_in. induction ws as [|w ws IH]; [reflexivity|].
  cbn [map filter fst]. rewrite Hne. exact IH.
Qed.

Lemma team_log_columns (idx : nat) (members : list (dict string)) :
  calls_in (Col 0) (team_log idx members)
  = flat_map member_card
      (if idx mod 2 =? 0 then even_positions members else odd_positions members)
  /\ calls_in (Col 1) (team_log idx members)
     = flat_map member_card
         (if idx mod 2 =? 0 then odd_positions members else even_positions members)
  /\ calls_in Page (team_log idx members) = [].
Proof.
  revert idx. induction members as [|m members IH]; intros idx.
  - destruct (idx mod 2 =? 0); repeat split.
  - cbn [team_log]. rewrite !calls_in_app.
    destruct (IH (S idx)) as (I0 & I1 & IP). rewrite I0, I1, IP.
    rewrite succ_parity. unfold odd_positions. cbn [tl].
    destruct (idx mod 2 =? 0); cbn [negb];
      rewrite ?calls_in_same, ?calls_in_other by reflexivity;
      cbn [app]; rewrite ?app_nil_r;
      (split; [|split]); try reflexivity;
      destruct members as [|m' members']; reflexivity.
Qed.

Lemma even_positions_length {X} (l : list X) :
  length (even_positions l) = (length l + 1) / 2
  /\ (forall x, length (even_positions (x :: l)) = (length l + 2) / 2).
Proof.
  induction l as [|y r [IH1 IH2]].
  - split; [reflexivity|intros x; reflexivity].
  - split.
    + rewrite (IH2 y). cbn [length]. f_equal. lia.
    + intros x. change (even_positions (x :: y :: r)) with (x :: even_positions r).
      cbn [length]. rewrite IH1.
      replace (S (length r) + 2) with (length r + 1 + 1 * 2) by lia.
      rewrite Nat.div_add by lia. lia.
Qed.

Lemma even_odd_lengths {X} (l : list X) :
  length (even_positions l) = (length l + 1) / 2
  /\ length (odd_positions l) = length l / 2.
Proof.
  split; [apply even_positions_length|].
  unfold odd_positions. destruct l as [|x r]; [reflexivity|].
  cbn [tl length]. rewrite (proj1 (even_positions_length r)). f_equal. lia.
Qed.

Section TeamPage.

Variable load_file : string -> result unit.

Lemma member_shows_dec (member : dict string) :
  member_shows load_file member \/ ~ member_shows load_file member.
Proof.
  unfold member_shows, has_member_keys, photo_loads, member_keys.
  destruct (dict_find "photo" member) as [photo|] eqn:Ep;
    [|right; intros [Hk _]; apply (Hk "photo"%string); cbn; auto].
  destruct (dict_find "name" member) eqn:En;
    [|right; intros [Hk _]; apply (Hk "name"%string); cbn; auto].
  destruct (dict_find "email" member) eqn:Ee;
    [|right; intros [Hk _]; apply (Hk "email"%string); cbn; auto 6].
  destruct (dict_find "linkedin" member) eqn:El;
    [|right; intros [Hk _]; apply (Hk "linkedin"%string); cbn; auto 7].
  destruct (load_file photo) as [[]|e] eqn:Hl.
  - left. split.
    + intros k Hin. cbn [In] in Hin.
      destruct Hin as [<- | [<- | [<- | [<- | []]]]]; congruence.
    + intros photo' [= <-]. exact Hl.
  - right. intros [_ Hp]. rewrite (Hp photo eq_refl) in Hl. discriminate.
Qed.

Lemma render_member_shown (c : container) (member : dict string) (s : page_state) :
  member_shows load_file member ->
  render_member load_file c member s
  = (mk_page_state (session s) (calls s ++ map (pair c) (member_card member)),
     Return tt).
Proof.
  intros [Hk Hload]. unfold has_member_keys, member_keys in Hk.
  assert (Hp := Hk "photo"%string). assert (Hn := Hk "name"%string).
  assert (He := Hk "email"%string). assert (Hl := Hk "linkedin"%string).
  cbn [In] in Hp, Hn, He, Hl. unfold photo_loads in Hload.
  unfold render_member, member_card, and_then, of_outcome, dict_getitem, emit.
  destruct (dict_find "photo" member) as [photo|]; [|exfalso; apply Hp; auto].
  rewrite (Hload photo eq_refl). cbn [lift]. unfold ret.
  destruct (dict_find "name" member) as [name|]; [|exfalso; apply Hn; auto].
  destruct (dict_find "email" member) as [email|]; [|exfalso; apply He; auto].
  destruct (dict_find "linkedin" member) as [linkedin|]; [|exfalso; apply Hl; auto 6].
  cbn [session calls map]. rewrite <- !app_assoc. cbn [app].
  reflexivity.
Qed.

(** How showing one member fails: a missing key, or a photo that does not
    open. *)
Lemma render_member_not_shown (c : container) (member : dict string) (s : page_state) :
  ~ member_shows load_file member ->
  (exists k, In k member_keys /\ dict_find k member = None
             /\ snd (render_member load_file c member s) = Throw (KeyError k))
  \/ (exists photo e, dict_find "photo" member = Some photo
                      /\ load_file photo = Raise e
                      /\ snd (render_member load_file c member s) = Throw (Core e)).
Proof.
  intros Hno.
  unfold render_member, and_then, of_outcome, dict_getitem, emit.
  destruct (dict_find "photo" member) as [photo|] eqn:Ep;
    [|left; exists "photo"%string; cbn; auto].
  destruct (load_file photo) as [[]|e] eqn:Hl; cbn [lift]; unfold ret, throw;
    [|right; exists photo, e; cbn; auto].
  destruct (dict_find "name" member) as [name|] eqn:En;
    [|left; exists "name"%string; cbn; auto].
  destruct (dict_find "email" member) as [email|] eqn:Ee;
    [|left; exists "email"%string; cbn; auto 6].
  destruct (dict_find "linkedin" member) as [linkedin|] eqn:El;
    [|left; exists "linkedin"%string; cbn; auto 7].
  exfalso. apply Hno. split.
  - intros k Hin. cbn [member_keys In] in Hin.
    destruct Hin as [<- | [<- | [<- | [<- | []]]]]; congruence.
  - intros photo' Hp'. congruence.
Qed.

Lemma render_team_from_shown (idx : nat) (members : list (dict string))
    (s : page_state) :
  Forall (member_shows load_file) members ->
  render_team_from load_file idx members s
  = (mk_page_state (session s) (calls s ++ team_log idx members), Return tt).
Proof.
  intros Hall. revert idx s.
  induction Hall as [|m members Hm _ IH]; intros idx s; cbn [render_team_from team_log].
  - unfold ret. rewrite app_nil_r. destruct s; reflexivity.
  - unfold and_then. rewrite (render_member_shown _ s Hm).
    rewrite IH. cbn [session calls]. rewrite app_assoc. reflexivity.
Qed.

Lemma render_team_from_outcome (idx : nat) (members : list (dict string))
    (s : page_state) :
  (snd (render_team_from load_file idx members s) = Return tt ->
   Forall (member_shows load_file) members)
  /\ (forall e, snd (render_team_from load_file idx members s) = Throw e ->
        (exists k member,
            e = KeyError k /\ In k member_keys
            /\ In member members /\ dict_find k member = None)
        \/ (exists member photo e',
               In member members /\ dict_find "photo" member = Some photo
               /\ load_file photo = Raise e' /\ e = Core e')).
Proof.
  revert idx s. induction members as [|m members IH]; intros idx s.
  - cbn [render_team_from]. split; [constructor|]. intros e He. discriminate.
  - cbn [render_team_from]. unfold and_then.
    destruct (member_shows_dec m) as [Hm|Hm].
    + rewrite (render_member_shown _ s Hm).
      destruct (IH (S idx)
                  (mk_page_state (session s)
                     (calls s ++ map (pair (if idx mod 2 =? 0 then Col 0 else Col 1))
                                     (member_card m)))) as [Hret Herr].
      split.
      * intros Hr. constructor; [exact Hm|apply Hret; exact Hr].
      * intros e He.
        destruct (Herr e He) as [(k & member & H1 & H2 & H3 & H4)
                                | (member & photo & e' & H1 & H2 & H3 & H4)].
        -- left. exists k, member. repeat split; try assumption. right. exact H3.
        -- right. exists member, photo, e'. repeat split; try assumption.
           right. exact H1.
    + destruct (render_member_not_shown
                  (if idx mod 2 =? 0 then Col 0 else Col 1) s Hm)
        as [(k & Hin & Hnone & Hthrow) | (photo & e' & Hp & Hl & Hthrow)];
        destruct (render_member load_file
                    (if idx mod 2 =? 0 then Col 0 else Col 1) m s)
          as [s' [[]|e0]]; cbn [snd] in Hthrow; try discriminate;
        injection Hthrow as ->; cbn [snd]; (split; [discriminate|]);
        intros e [= <-].
      * left. exists k, m. repeat split; try assumption. left. reflexivity.
      * right. exists m, photo, e'. repeat split; try assumption. left. reflexivity.
Qed.

End TeamPage.

(** X14: the team page puts the members alternately into its two columns.
    When the loop ends normally, every member has the keys photo, name,
    email and linkedin and a photo that Streamlit could open; the first
    column has got, in order, the photo and the three lines of the members
    at positions 0, 2, 4, ..., the second those at positions 1, 3, 5, ...,
    and nothing was shown outside the columns.  The first column holds as
    many members as the second, or one more. *)
Theorem render_team_columns (load_file : string -> result unit)
    (members : list (dict string)) (s s' : page_state) :
  render_team load_file members s = (s', Return tt) ->
  Forall (member_shows load_file) members
  /\ exists log,
       s' = mk_page_state (session s) (calls s ++ log)
       /\ calls_in (Col 0) log = flat_map member_card (even_positions members)
       /\ calls_in (Col 1) log = flat_map member_card (odd_positions members)
       /\ calls_in Page log = []
       /\ length (even_positions members) = (length members + 1) / 2
       /\ length (odd_positions members) = length members / 2.
Proof.
  unfold render_team. intros Hr.
  assert (Hall : Forall (member_shows load_file) members).
  { apply (proj1 (render_team_from_outcome load_file 0 members s)).
    rewrite Hr. reflexivity. }
  split; [exact Hall|].
  rewrite (render_team_from_shown 0 s Hall) in Hr. injection Hr as <-.
  exists (team_log 0 members). split; [reflexivity|].
  destruct (team_log_columns 0 members) as (H0 & H1 & HP).
  destruct (even_odd_lengths members) as [He Ho].
  repeat split; assumption.
Qed.

Lemma team_members_shown : Forall (member_shows load_any) team_members.
Proof.
  repeat constructor; try reflexivity; intros k Hin; cbn [member_keys In] in Hin;
    destruct Hin as [<- | [<- | [<- | [<- | []]]]]; discriminate.
Qed.

Lemma render_team_columns_witness :
  Forall (member_shows load_any) team_members
  /\ exists log,
       mk_page_state (session new_session) (calls new_session ++ team_log 0 team_members)
       = mk_page_state (session new_session) (calls new_session ++ log)
       /\ calls_in (Col 0) log = flat_map member_card (even_positions team_members)
       /\ calls_in (Col 1) log = flat_map member_card (odd_positions team_members)
       /\ calls_in Page log = []
       /\ length (even_positions team_members) = (length team_members + 1) / 2
       /\ length (odd_positions team_members) = length team_members / 2.
Proof.
  apply (@render_team_columns load_any team_members new_session).
  apply (render_team_from_shown 0 new_session team_members_shown).
Defined.

(** X15: how the team page ends.  The loop ends normally exactly when
    every member has the four keys and a photo that Streamlit can open.
    Otherwise it ends either in a [KeyError] that names one of the four
    keys, missing from one of the members, or in the error of opening the
    photo of one of the members; no other exception occurs. *)
Theorem render_team_key_error (load_file : string -> result unit)
    (members : list (dict string)) (s : page_state) :
  (snd (render_team load_file members s) = Return tt
   <-> Forall (member_shows load_file) members)
  /\ (forall e, snd (render_team load_file members s) = Throw e ->
        (exists k member,
            e = KeyError k /\ In k member_keys
            /\ In member members /\ dict_find k member = None)
        \/ (exists member photo e',
               In member members /\ dict_find "photo" member = Some photo
               /\ load_file photo = Raise e' /\ e = Core e')).
Proof.
  unfold render_team.
  destruct (render_team_from_outcome load_file 0 members s) as [Hret Herr].
  split; [split; [exact Hret|]|exact Herr].
  intros Hall. rewrite (render_team_from_shown 0 s Hall). reflexivity.
Qed.

(* ------------------------------------------------------------------ *)
(** ** Choosing the image, the pairs page and the "Run Model" block *)

Section Selection.

Variable image_open : string -> result Image.
Variable uploaded_file_t : Type.
Variable image_open_upload : uploaded_file_t -> result Image.

(** The value of [selected_image] after the loop over the buttons. *)
Lemma sample_buttons_returns (n_cols : nat) (clicked : string -> bool)
    (items : dict string) (idx : nat) (selected_image r : option Image)
    (s s' : page_state) :
  sample_buttons image_open n_cols idx clicked items selected_image s
  = (s', Return r) ->
  r = selected_image
  \/ (exists label path im,
         In (label, path) items /\ clicked label = true
         /\ image_open path = Ok im /\ r = Some im).
Proof.
  revert idx selected_image s.
  induction items as [|[label path] items IH]; intros idx sel s; cbn [sample_buttons].
  - unfold ret. intros [= _ <-]. left. reflexivity.
  - unfold and_then, lift, column, emit, ret, throw.
    destruct (image_open path) as [img|e] eqn:Ho; [|discriminate].
    destruct (idx <? n_cols); [|discriminate].
    destruct (clicked label) eqn:Hc.
    + intros Hr. apply IH in Hr.
      destruct Hr as [-> | (l & p & im & Hin & H1 & H2 & ->)].
      * right. exists label, path, img. repeat split; auto. left. reflexivity.
      * right. exists l, p, im. repeat split; auto. right. exact Hin.
    + intros Hr. apply IH in Hr.
      destruct Hr as [-> | (l & p & im & Hin & H1 & H2 & ->)].
      * left. reflexivity.
      * right. exists l, p, im. repeat split; auto. right. exact Hin.
Qed.

Lemma show_samples_index_error (n_cols : nat) (items : dict string) (idx : nat)
    (s : page_state) :
  snd (show_samples image_open n_cols idx items s) = Throw ListIndexError ->
  n_cols < idx + length items.
Proof.
  revert idx s. induction items as [|[label path] items IH]; intros idx s;
    cbn [show_samples].
  - discriminate.
  - unfold and_then, lift, column, emit, ret, throw.
    destruct (image_open path) as [img|e]; [|discriminate].
    destruct (idx <? n_cols) eqn:Hi.
    + intros Hr. apply IH in Hr. cbn [length]. lia.
    + intros _. apply Nat.ltb_ge in Hi. cbn [length]. lia.
Qed.

Lemma sample_buttons_index_error (n_cols : nat) (clicked : string -> bool)
    (items : dict string) (idx : nat) (selected_image : option Image)
    (s : page_state) :
  snd (sample_buttons image_open n_cols idx clicked items selected_image s)
  = Throw ListIndexError ->
  n_cols < idx + length items.
Proof.
  revert idx selected_image s.
  induction items as [|[label path] items IH]; intros idx sel s; cbn [sample_buttons].
  - discriminate.
  - unfold and_then, lift, column, emit, ret, throw.
    destruct (image_open path) as [img|e] eqn:Ho; [|discriminate].
    destruct (idx <? n_cols) eqn:Hi.
    + destruct (clicked label);
        intros Hr; apply IH in Hr; cbn [length]; lia.
    + intros _. apply Nat.ltb_ge in Hi. cbn [length]. lia.
Qed.

End Selection.

(** X16: which image is selected.  When the selection ends normally: an
    uploaded file always wins, the selected image is the decoded upload
    whatever buttons were clicked; without an upload the selected image, if
    any, is the decoded file of a sample whose button was clicked; and
    with no upload and no click nothing is selected. *)
Theorem select_image_priority
    (image_open : string -> result Image) (uploaded_file_t : Type)
    (image_open_upload : uploaded_file_t -> result Image)
    (n_cols : nat) (items : dict string) (clicked : string -> bool)
    (uploaded_file : option uploaded_file_t)
    (s s' : page_state) (r : option Image) :
  select_image image_open image_open_upload n_cols items clicked uploaded_file s
  = (s', Return r) ->
  (forall f, uploaded_file = Some f ->
     exists im, image_open_upload f = Ok im /\ r = Some im)
  /\ (uploaded_file = None ->
      forall im, r = Some im ->
        exists label path,
          In (label, path) items /\ clicked label = true
          /\ image_open path = Ok im)
  /\ (uploaded_file = None ->
      (forall label path, In (label, path) items -> clicked label = false) ->
      r = None).
Proof.
  unfold select_image, and_then.
  destruct (show_samples image_open n_cols 0 items s) as [s1 [[]|e]];
    [|discriminate].
  destruct (sample_buttons image_open n_cols 0 clicked items None s1)
    as [s2 [sel|e]] eqn:Hb; [|discriminate].
  apply sample_buttons_returns in Hb.
  unfold emit, lift, ret, throw.
  destruct uploaded_file as [f|].
  - destruct (image_open_upload f) as [im|e] eqn:Hu; [|discriminate].
    intros [= _ <-]. split; [|split]; try discriminate.
    intros f' [= <-]. exists im. split; [exact Hu|reflexivity].
  - intros [= _ <-]. split; [discriminate|]. split.
    + intros _ im ->.
      destruct Hb as [Hb | (l & p & im' & Hin & H1 & H2 & [= ->])]; [discriminate|].
      exists l, p. repeat split; assumption.
    + intros _ Hnone.
      destruct Hb as [Hb | (l & p & im' & Hin & H1 & H2 & _)]; [exact Hb|].
      rewrite (Hnone l p Hin) in H1. discriminate.
Qed.

Lemma select_image_priority_witness :
  (forall f : string, Some "upload.png"%string = Some f ->
     exists im, open_any rgb_image f = Ok im /\ Some rgb_image = Some im)
  /\ (Some "upload.png"%string = None ->
      forall im, Some rgb_image = Some im ->
        exists label path,
          In (label, path) sample_images /\ (fun _ : string => true) label = true
          /\ open_any gray_image path = Ok im)
  /\ (Some "upload.png"%string = None ->
      (forall label path, In (label, path) sample_images ->
         (fun _ : string => true) label = false) ->
      Some rgb_image = None).
Proof.
  eapply (@select_image_priority (open_any gray_image) string (open_any rgb_image)
            3 sample_images (fun _ => true) (Some "upload.png"%string)
            new_session).
  reflexivity.
Defined.

(** X17: the sample columns.  The selection raises "list index out of
    range" only when there are more samples than columns; with the three
    samples and three columns of the script it never does. *)
Theorem select_image_index_error
    (image_open : string -> result Image) (uploaded_file_t : Type)
    (image_open_upload : uploaded_file_t -> result Image)
    (n_cols : nat) (items : dict string) (clicked : string -> bool)
    (uploaded_file : option uploaded_file_t) (s : page_state) :
  (snd (select_image image_open image_open_upload n_cols items clicked
          uploaded_file s) = Throw ListIndexError ->
   n_cols < length items)
  /\ snd (select_image image_open image_open_upload 3 sample_images clicked
            uploaded_file s) <> Throw ListIndexError.
Proof.
  assert (Hgen : forall n its,
            snd (select_image image_open image_open_upload n its clicked
                   uploaded_file s) = Throw ListIndexError ->
            n < length its).
  { intros n its. unfold select_image, and_then.
    destruct (show_samples image_open n 0 its s) as [s1 [[]|e]] eqn:H1.
    - destruct (sample_buttons image_open n 0 clicked its None s1)
        as [s2 [sel|e]] eqn:H2.
      + unfold emit, lift, ret, throw.
        destruct uploaded_file as [f|]; [|discriminate].
        destruct (image_open_upload f); discriminate.
      + cbn [snd]. intros [= ->].
        apply (sample_buttons_index_error image_open n clicked its 0 None s1).
        rewrite H2. reflexivity.
    - cbn [snd]. intros [= ->].
      apply (show_samples_index_error image_open n its 0 s).
      rewrite H1. reflexivity. }
  split; [apply Hgen|].
  intros Hthrow. apply Hgen in Hthrow. cbn in Hthrow. lia.
Qed.



(** X19: the two model types run one model.  Both loaders read
    "model.h5", so the loaded models are equal, and the "Run Model" block
    hands the same array to [st.image], ends in the same way and leaves the
    same session state for "Height Model" and for "Segmentation Model";
    only the heading, the caption and the text line differ. *)
Theorem run_model_block_one_model
    (resize : Image -> nat * nat -> result Image) (model_t : Type)
    (load_model : string -> result model_t)
    (predict : model_t -> ndarray float -> result (ndarray float))
    (height_model segmentation_model : model_t)
    (selected_image : option Image) (run_clicked : bool) (s : page_state) :
  load_height_model load_model = Ok height_model ->
  load_segmentation_model load_model = Ok segmentation_model ->
  let run := run_model_block resize predict height_model segmentation_model in
  height_model = segmentation_model
  /\ shown_arrays (calls (fst (run "Height Model"%string selected_image run_clicked s)))
     = shown_arrays
         (calls (fst (run "Segmentation Model"%string selected_image run_clicked s)))
  /\ snd (run "Height Model"%string selected_image run_clicked s)
     = snd (run "Segmentation Model"%string selected_image run_clicked s)
  /\ session (fst (run "Height Model"%string selected_image run_clicked s))
     = session (fst (run "Segmentation Model"%string selected_image run_clicked s)).
Proof.
  unfold load_height_model, load_segmentation_model. intros Hh Hs.
  assert (Heq : height_model = segmentation_model) by congruence.
  subst segmentation_model. cbv zeta. split; [reflexivity|].
  unfold run_model_block. destruct selected_image as [im|]; [|repeat split].
  destruct run_clicked; [|repeat split].
  change (String.eqb "Height Model" "Height Model") with true.
  change (String.eqb "Segmentation Model" "Height Model") with false.
  change (String.eqb "Segmentation Model" "Segmentation Model") with true.
  cbn iota. unfold and_then, emit, lift, ret, throw.
  destruct (run_model_input resize im) as [x|e]; [|repeat split].
  destruct (predict height_model x) as [p|e]; [|repeat split].
  cbn [session calls].
  destruct (index_first 0 p) as [a|e]; cbn [session calls fst snd].
  - unfold shown_arrays. rewrite !flat_map_app. cbn [flat_map snd app].
    repeat split.
  - unfold shown_arrays. rewrite !flat_map_app. cbn [flat_map snd app].
    repeat split.
Qed.

Lemma run_model_block_one_model_witness :
  let run := run_model_block resize_nearest (constant_predict scenario_tensor) tt tt in
  tt = tt
  /\ shown_arrays (calls (fst (run "Height Model"%string (Some gray_image) true new_session)))
     = shown_arrays
         (calls (fst (run "Segmentation Model"%string (Some gray_image) true new_session)))
  /\ snd (run "Height Model"%string (Some gray_image) true new_session)
     = snd (run "Segmentation Model"%string (Some gray_image) true new_session)
  /\ session (fst (run "Height Model"%string (Some gray_image) true new_session))
     = session (fst (run "Segmentation Model"%string (Some gray_image) true new_session)).
Proof.
  apply (@run_model_block_one_model resize_nearest unit (fun _ => Ok tt)
           (constant_predict scenario_tensor) tt tt (Some gray_image) true
           new_session).
  - reflexivity.
  - reflexivity.
Defined.
